(** * Telegram-add-member: the Collector (get_members.py) and the Dispatcher
      (add_members.py), embedded as state-passing functions.

    Python values are modelled as follows.
    - [int] is [Z]; list positions and call counters are [nat].
    - [self.all_members] is a Python [dict]: an association list kept in
      insertion order, where assigning to a key already present replaces the
      value in place and assigning to a new key appends.
    - [self.daily_stats] is a [gmap string Z] (only looked up and updated).
    - The Telegram service is an oracle: a record of functions giving the
      answer to each remote call.  Calls are numbered by a counter held in the
      state, so an oracle may answer the same request differently later on.
    - [asyncio.sleep] and the calls made to the service are recorded in a
      journal of events, oldest first.
    - Writing a file, creating or disconnecting a client and sleeping do not
      raise; every other call made inside a [try] may. *)

From stdpp Require Import gmap strings list.

(** ** Data shared by both programs *)

(** The dictionary built by [MemberScraper.user_to_dict] and read back from
    the JSON file by [MemberAdder.load_members]. *)
Record CandidateRecord := {
  c_id : Z;
  c_access_hash : Z;
  c_username : option string;
  c_first_name : option string;
  c_last_name : option string;
  c_phone : option string;
  c_bot : bool;
  c_verified : bool;
  c_restricted : bool;
  c_scam : bool;
  c_fake : bool;
  c_premium : bool
}.

(** Answer of a remote call made inside a [try]: a value, a
    [FloodWaitError] carrying [e.seconds], or any other exception. *)
Inductive Reply (A : Type) :=
| Ok (a : A)
| FloodWait (seconds : Z)
| Failed.
Arguments Ok {A} a.
Arguments FloodWait {A} seconds.
Arguments Failed {A}.

(** ** Python dictionaries keyed by integers *)

Fixpoint dict_set {V : Type} (k : Z) (v : V) (d : list (Z * V)) : list (Z * V) :=
  match d with
  | [] => [(k, v)]
  | (k', v') :: r =>
      if bool_decide (k' = k) then (k', v) :: r else (k', v') :: dict_set k v r
  end.

Fixpoint dict_get {V : Type} (k : Z) (d : list (Z * V)) : option V :=
  match d with
  | [] => None
  | (k', v') :: r => if bool_decide (k' = k) then Some v' else dict_get k r
  end.

Definition dict_keys {V : Type} (d : list (Z * V)) : list Z := d.*1.
Definition dict_values {V : Type} (d : list (Z * V)) : list V := d.*2.

(** ** get_members.py *)

Module GetMembers.

(** A [telethon.tl.types.User] as far as the scraper reads it. *)
Record User := {
  id : Z;
  access_hash : Z;
  username : option string;
  first_name : option string;
  last_name : option string;
  phone : option string;
  bot : bool;
  deleted : bool;
  verified : bool;
  restricted : bool;
  scam : bool;
  fake : bool;
  premium : bool
}.

(** What [isinstance(x, User)] separates: a user, or anything else (a
    channel, a chat, an empty user). *)
Inductive Entity :=
| IsUser (u : User)
| NotUser.

(** A message: [message.id] and [message.sender] ([None] when absent). *)
Record Message := {
  msg_id : Z;
  sender : option Entity
}.

Inductive ParticipantsFilter :=
| ChannelParticipantsSearch (pattern : string)
| ChannelParticipantsRecent.

#[global] Instance ParticipantsFilter_eq_dec : EqDecision ParticipantsFilter.
Proof. solve_decision. Defined.

(** The source group as seen through the client.  [nat] arguments are the
    number of remote calls made so far; [Z] arguments of the two message
    calls are the [limit] passed. *)
Record Source := {
  connect : Reply unit;
  is_user_authorized : Reply bool;
  get_entity : Reply unit;
  (* GetParticipantsRequest(filter, offset=0, limit=200, hash=0).users *)
  participants : nat -> ParticipantsFilter -> Reply (list Entity);
  (* iter_messages: the messages yielded, and whether it then raised *)
  iter_messages : Z -> list Message * bool;
  get_messages : Z -> Reply (list Message);
  (* get_message_reactions: the peers of the reactions, None when it raised *)
  get_message_reactions : nat -> Z -> option (list Entity)
}.

Inductive Event :=
| EvRequest (f : ParticipantsFilter)
| EvSleep (seconds : Z).

Record MemberScraper := {
  all_members : list (Z * CandidateRecord);
  clock : nat;
  journal : list Event
}.

(** [__init__] *)
Definition init : MemberScraper :=
  {| all_members := []; clock := 0; journal := [] |}.

Definition user_to_dict (user : User) : CandidateRecord :=
  {| c_id := id user;
     c_access_hash := access_hash user;
     c_username := username user;
     c_first_name := first_name user;
     c_last_name := last_name user;
     c_phone := phone user;
     c_bot := bot user;
     c_verified := verified user;
     c_restricted := restricted user;
     c_scam := scam user;
     c_fake := fake user;
     c_premium := premium user |}.

(** Body of the loop of [get_members_from_messages]. *)
Definition keep_sender (d : list (Z * CandidateRecord)) (message : Message)
  : list (Z * CandidateRecord) :=
  match sender message with
  | Some (IsUser u) =>
      if negb (bot u) && negb (deleted u)
      then dict_set (id u) (user_to_dict u) d
      else d
  | _ => d
  end.

(** Body of the inner loop of [get_members_from_reactions]. *)
Definition keep_reactor (d : list (Z * CandidateRecord)) (peer : Entity)
  : list (Z * CandidateRecord) :=
  match peer with
  | IsUser u => if negb (bot u) then dict_set (id u) (user_to_dict u) d else d
  | NotUser => d
  end.

(** Body of the loops over [participants.users] in
    [get_members_by_search] and [get_members_from_recent]. *)
Definition keep_participant (d : list (Z * CandidateRecord)) (user : Entity)
  : list (Z * CandidateRecord) :=
  match user with
  | IsUser u =>
      if negb (bot u) && negb (deleted u)
      then dict_set (id u) (user_to_dict u) d
      else d
  | NotUser => d
  end.

Definition get_members_from_messages (src : Source) (limit : Z)
  (self : MemberScraper) : MemberScraper :=
  (* an exception raised by the iterator ends the loop and is only logged *)
  {| all_members := foldl keep_sender (all_members self) (iter_messages src limit).1;
     clock := S (clock self);
     journal := journal self |}.

(** One turn of the loop over [messages] in [get_members_from_reactions]:
    the state is the dictionary and the call counter. *)
Definition reactions_of_message (src : Source)
  (acc : list (Z * CandidateRecord) * nat) (message : Message)
  : list (Z * CandidateRecord) * nat :=
  match get_message_reactions src acc.2 (msg_id message) with
  | Some reactions => (foldl keep_reactor acc.1 reactions, S acc.2)
  | None => (acc.1, S acc.2)
  end.

Definition get_members_from_reactions (src : Source) (limit : Z)
  (self : MemberScraper) : MemberScraper :=
  match get_messages src limit with
  | Ok messages =>
      let r := foldl (reactions_of_message src)
                     (all_members self, S (clock self)) messages in
      {| all_members := r.1; clock := r.2; journal := journal self |}
  | _ =>
      {| all_members := all_members self;
         clock := S (clock self);
         journal := journal self |}
  end.

Definition search_patterns : list string :=
  [ "a"; "e"; "i"; "o"; "u";
    "al"; "an"; "be"; "ch"; "de"; "el"; "jo"; "ka"; "ma"; "mi";
    "mo"; "ra"; "sa"; "sh"; "st"; "th"; "wi";
    "1"; "2"; "3"; "4"; "5"; "6"; "7"; "8"; "9"; "0" ]%string.

(** One turn of [for pattern in search_patterns]. *)
Definition search_pattern (src : Source) (self : MemberScraper)
  (pattern : string) : MemberScraper :=
  let request := ChannelParticipantsSearch pattern in
  match participants src (clock self) request with
  | Ok users =>
      {| all_members := foldl keep_participant (all_members self) users;
         clock := S (clock self);
         journal := journal self ++ [EvRequest request; EvSleep 2] |}
  | FloodWait seconds =>
      {| all_members := all_members self;
         clock := S (clock self);
         journal := journal self ++ [EvRequest request; EvSleep seconds] |}
  | Failed =>
      {| all_members := all_members self;
         clock := S (clock self);
         journal := journal self ++ [EvRequest request] |}
  end.

Definition get_members_by_search (src : Source) (self : MemberScraper)
  : MemberScraper :=
  foldl (search_pattern src) self search_patterns.

Definition get_members_from_recent (src : Source) (self : MemberScraper)
  : MemberScraper :=
  let request := ChannelParticipantsRecent in
  match participants src (clock self) request with
  | Ok users =>
      {| all_members := foldl keep_participant (all_members self) users;
         clock := S (clock self);
         journal := journal self ++ [EvRequest request] |}
  | _ =>
      {| all_members := all_members self;
         clock := S (clock self);
         journal := journal self ++ [EvRequest request] |}
  end.

(** Python truthiness of an optional string. *)
Definition truthy (s : option string) : bool :=
  match s with
  | Some s => negb (bool_decide (s = ""%string))
  | None => false
  end.

Record Stats := {
  total_members : nat;
  with_username : nat;
  with_phone : nat;
  premium_users : nat;
  verified_users : nat
}.

Definition make_stats (members_list : list CandidateRecord) : Stats :=
  {| total_members := length members_list;
     with_username := length (filter (fun m => truthy (c_username m) = true) members_list);
     with_phone := length (filter (fun m => truthy (c_phone m) = true) members_list);
     premium_users := length (filter (fun m => c_premium m = true) members_list);
     verified_users := length (filter (fun m => c_verified m = true) members_list) |}.

(** What [run] leaves behind: the scraper object and the two files. *)
Record Outcome := {
  scraper : MemberScraper;
  members_file : option (list CandidateRecord);
  stats_file : option Stats
}.

Definition nothing_saved (self : MemberScraper) : Outcome :=
  {| scraper := self; members_file := None; stats_file := None |}.

Definition run (src : Source) (self : MemberScraper) : Outcome :=
  match connect src with
  | Ok _ =>
      match is_user_authorized src with
      | Ok true =>
          match get_entity src with
          | Ok _ =>
              let self := get_members_from_recent src self in
              let self := get_members_from_messages src 3000 self in
              let self := get_members_from_reactions src 100 self in
              let self := get_members_by_search src self in
              let members_list := dict_values (all_members self) in
              match members_list with
              | [] => nothing_saved self
              | _ =>
                  {| scraper := self;
                     members_file := Some members_list;
                     stats_file := Some (make_stats members_list) |}
              end
          | _ => nothing_saved self
          end
      | _ => nothing_saved self
      end
  | _ => nothing_saved self
  end.

End GetMembers.

(** ** add_members.py *)

Module AddMembers.

(** The keys of [config.json] the dispatcher reads ([api_id] and [api_hash]
    are only handed to the client). *)
Record Config := {
  accounts : list string;
  group_source : string;
  group_target : string;
  members_to_add : Z;
  min_delay : Z;
  max_delay : Z;
  max_adds_per_day_per_account : Z
}.

(** How [client(InviteToChannelRequest(...))] ends: it returns, or raises
    one of the exceptions [add_member] tells apart, or any other one. *)
Inductive InviteResult :=
| Invited
| FloodWaitError (seconds : Z)
| UserPrivacyRestrictedError
| UserNotMutualContactError
| UserBannedInChannelError
| UserBlockedError
| PeerFloodError
| OtherError.

(** The service and the random generator.  The [nat] is the number of remote
    calls made so far, the [string] the session file of the client used.
    [connect] and [get_entity] tell whether the call returns (it raises
    otherwise); [is_user_authorized] is [None] when it raises. *)
Record Telegram := {
  connect : nat -> string -> bool;
  is_user_authorized : nat -> string -> option bool;
  get_entity : nat -> string -> bool;
  invite : nat -> string -> CandidateRecord -> InviteResult;
  random : nat -> Z
}.

(** [random.randint(a, b)]: an integer of [a..b], [ValueError] ([None]) on
    an empty range. *)
Definition randint (tg : Telegram) (t : nat) (a b : Z) : option Z :=
  if bool_decide (a ≤ b)%Z then Some (a + random tg t `mod` (b - a + 1))%Z else None.

Inductive Event :=
| EvConnect (session_file : string)
| EvDisconnect (session_file : string)
| EvInvite (session_file : string) (user_data : CandidateRecord) (r : InviteResult)
| EvSleep (seconds : Z).

(** Content of data/adding_progress.json (the timestamp is left out). *)
Record ProgressRecord := {
  added_members : list CandidateRecord;
  daily_stats : gmap string Z
}.

(** The [MemberAdder] object ([current_account_index], [daily_stats]), the
    list [added_members] local to [run], the progress file, the call counter
    and the journal. *)
Record State := {
  current_account_index : nat;
  stats : gmap string Z;
  added : list CandidateRecord;
  progress_file : option ProgressRecord;
  clock : nat;
  journal : list Event
}.

Definition set_index (i : nat) (st : State) : State :=
  {| current_account_index := i; stats := stats st; added := added st;
     progress_file := progress_file st; clock := clock st; journal := journal st |}.

Definition set_stats (m : gmap string Z) (st : State) : State :=
  {| current_account_index := current_account_index st; stats := m; added := added st;
     progress_file := progress_file st; clock := clock st; journal := journal st |}.

Definition set_added (l : list CandidateRecord) (st : State) : State :=
  {| current_account_index := current_account_index st; stats := stats st; added := l;
     progress_file := progress_file st; clock := clock st; journal := journal st |}.

Definition tick (st : State) : State :=
  {| current_account_index := current_account_index st; stats := stats st; added := added st;
     progress_file := progress_file st; clock := S (clock st); journal := journal st |}.

Definition emit (evs : list Event) (st : State) : State :=
  {| current_account_index := current_account_index st; stats := stats st; added := added st;
     progress_file := progress_file st; clock := clock st; journal := journal st ++ evs |}.

(** [__init__] *)
Definition init (cfg : Config) : State :=
  {| current_account_index := 0;
     stats := list_to_map ((fun phone => (phone, 0%Z)) <$> accounts cfg);
     added := [];
     progress_file := None;
     clock := 0;
     journal := [] |}.

(** [load_members]: the parsed file, [[]] when reading it raised. *)
Definition load_members (file : option (list CandidateRecord)) : list CandidateRecord :=
  match file with
  | Some members => members
  | None => []
  end.

(** [save_progress(added_members)]: the file is overwritten. *)
Definition save_progress (st : State) : State :=
  {| current_account_index := current_account_index st; stats := stats st; added := added st;
     progress_file := Some {| added_members := added st; daily_stats := stats st |};
     clock := clock st; journal := journal st |}.

Definition switch_account (cfg : Config) (st : State) : State :=
  set_index ((current_account_index st + 1) `mod` length (accounts cfg)) st.

Definition add_member (cfg : Config) (tg : Telegram) (session_file : string)
  (user_data : CandidateRecord) (st : State) : bool * State :=
  let r := invite tg (clock st) session_file user_data in
  let st := emit [EvInvite session_file user_data r] (tick st) in
  match r with
  | Invited =>
      match randint tg (clock st) (min_delay cfg) (max_delay cfg) with
      | Some delay => (true, emit [EvSleep delay] st)
      | None => (false, st)  (* ValueError, caught by [except Exception] *)
      end
  | FloodWaitError seconds => (false, emit [EvSleep seconds] st)
  | UserPrivacyRestrictedError => (false, st)
  | UserNotMutualContactError => (false, st)
  | UserBannedInChannelError => (false, st)
  | UserBlockedError => (false, st)
  | PeerFloodError => (false, emit [EvSleep 60] (switch_account cfg st))
  | OtherError => (false, st)
  end.

(** Where a block of [run] ends: at its end, or by an exception on its way
    to [except Exception] of the main loop. *)
Inductive Flow (A : Type) :=
| Normal (a : A)
| Raised (a : A).
Arguments Normal {A} a.
Arguments Raised {A} a.

(** Lines 165-167: what follows a successful [add_member]. *)
Definition record_success (current_phone : string) (user_data : CandidateRecord)
  (st : State) : Flow State :=
  let st := set_added (added st ++ [user_data]) st in
  match stats st !! current_phone with
  | Some n => Normal (save_progress (set_stats (<[current_phone := (n + 1)%Z]> (stats st)) st))
  | None => Raised st  (* KeyError *)
  end.

(** The inner loop, lines 161-171; it returns the candidates left. *)
Fixpoint add_members (cfg : Config) (tg : Telegram) (session_file current_phone : string)
  (members : list CandidateRecord) (st : State) : Flow (list CandidateRecord * State) :=
  match members with
  | [] => Normal ([], st)
  | user_data :: rest =>
      if bool_decide (Z.of_nat (length (added st)) < members_to_add cfg)%Z then
        let '(ok, st) := add_member cfg tg session_file user_data st in
        match (if ok then record_success current_phone user_data st else Normal st) with
        | Raised st => Raised (rest, st)
        | Normal st =>
            match stats st !! current_phone with
            | None => Raised (rest, st)  (* KeyError *)
            | Some n =>
                if bool_decide (max_adds_per_day_per_account cfg ≤ n)%Z
                then Normal (rest, st)
                else add_members cfg tg session_file current_phone rest st
            end
        end
      else Normal (members, st)
  end.

Definition session_of (current_phone : string) : string :=
  ("sessions/" +:+ current_phone)%string.

(** [switch_account] followed by the two assignments to [current_phone] and
    [session_file]; only the phone is kept, the session file follows it. *)
Definition rotate (cfg : Config) (current_phone : string) (st : State)
  : Flow (string * State) :=
  let st := switch_account cfg st in
  match accounts cfg !! current_account_index st with
  | Some phone => Normal (phone, st)
  | None => Raised (current_phone, st)  (* IndexError *)
  end.

Definition with_members {A B : Type} (members : A) (r : Flow B) : Flow (A * B) :=
  match r with
  | Normal x => Normal (members, x)
  | Raised x => Raised (members, x)
  end.

Definition with_phone {A : Type} (current_phone : string) (r : Flow (A * State))
  : Flow (A * (string * State)) :=
  match r with
  | Normal (m, st) => Normal (m, (current_phone, st))
  | Raised (m, st) => Raised (m, (current_phone, st))
  end.

(** The [try] block of the main loop, lines 140-171. *)
Definition try_block (cfg : Config) (tg : Telegram) (members : list CandidateRecord)
  (current_phone : string) (st : State)
  : Flow (list CandidateRecord * (string * State)) :=
  let session_file := session_of current_phone in
  let connected := connect tg (clock st) session_file in
  let st := emit [EvConnect session_file] (tick st) in
  if connected then
    let authorized := is_user_authorized tg (clock st) session_file in
    let st := tick st in
    match authorized with
    | None => Raised (members, (current_phone, st))
    | Some false => with_members members (rotate cfg current_phone st)
    | Some true =>
        let found := get_entity tg (clock st) session_file in
        let st := tick st in
        if found then
          match stats st !! current_phone with
          | None => Raised (members, (current_phone, st))  (* KeyError *)
          | Some n =>
              if bool_decide (max_adds_per_day_per_account cfg ≤ n)%Z
              then with_members members (rotate cfg current_phone st)
              else with_phone current_phone
                     (add_members cfg tg session_file current_phone members st)
          end
        else Raised (members, (current_phone, st))
    end
  else Raised (members, (current_phone, st)).

(** One turn of the main loop: [try], [except Exception] (sleep 60) and
    [finally] (disconnect the client created at the top of the turn). *)
Definition turn (cfg : Config) (tg : Telegram) (members : list CandidateRecord)
  (current_phone : string) (st : State) : list CandidateRecord * (string * State) :=
  let session_file := session_of current_phone in
  match try_block cfg tg members current_phone st with
  | Normal (m, (phone, st)) => (m, (phone, emit [EvDisconnect session_file] st))
  | Raised (m, (phone, st)) => (m, (phone, emit [EvSleep 60; EvDisconnect session_file] st))
  end.

Inductive Result :=
| NoMembers                    (* "No members found to add!": early return *)
| Crashed                      (* uncaught IndexError on [accounts[0]] *)
| Completed (st : State)       (* the loop was left, final progress saved *)
| Running (members : list CandidateRecord) (current_phone : string) (st : State).

(** The main loop, lines 134-182; [fuel] bounds the number of turns. *)
Fixpoint main_loop (fuel : nat) (cfg : Config) (tg : Telegram)
  (members : list CandidateRecord) (current_phone : string) (st : State) : Result :=
  if bool_decide (Z.of_nat (length (added st)) < members_to_add cfg)%Z
     && negb (bool_decide (members = []))
  then
    match fuel with
    | 0 => Running members current_phone st
    | S fuel =>
        let '(members, (current_phone, st)) := turn cfg tg members current_phone st in
        main_loop fuel cfg tg members current_phone st
    end
  else Completed (save_progress st).

Definition run (fuel : nat) (cfg : Config) (tg : Telegram)
  (file : option (list CandidateRecord)) (self : State) : Result :=
  let members := load_members file in
  match members with
  | [] => NoMembers
  | _ =>
      match accounts cfg !! current_account_index self with
      | None => Crashed
      | Some current_phone =>
          main_loop fuel cfg tg members current_phone (set_added [] self)
      end
  end.

End AddMembers.

(** ** init_session.py *)

Module InitSession.

(** The service and the operator at the keyboard.  The [nat] is the number
    of calls made so far.  [connect], [send_code_request] and [sign_in] tell
    whether the call returns (it raises otherwise); [is_user_authorized] and
    [input] are [None] when they raise. *)
Record Console := {
  connect : nat -> string -> bool;
  is_user_authorized : nat -> string -> option bool;
  send_code_request : nat -> string -> bool;
  input : nat -> string -> option string;
  sign_in : nat -> string -> string -> bool
}.

(** The last line printed for an account. *)
Inductive Report :=
| LoggedIn            (* "Successfully logged in with ..." *)
| AlreadyAuthorized   (* "Already authorized for ..." *)
| Error.              (* "Error with ..." *)

Inductive Event :=
| EvConnect (session_file : string)
| EvCodeRequest (phone : string)
| EvSignIn (phone code : string)
| EvReport (phone : string) (r : Report)
| EvDisconnect (session_file : string).

Record State := {
  clock : nat;
  journal : list Event
}.

Definition tick (st : State) : State :=
  {| clock := S (clock st); journal := journal st |}.

Definition emit (evs : list Event) (st : State) : State :=
  {| clock := clock st; journal := journal st ++ evs |}.

Definition start : State := {| clock := 0; journal := [] |}.

(** Lines 23-27: the branch of a session that is not authorized. *)
Definition log_in (c : Console) (phone : string) (st : State) : State :=
  let sent := send_code_request c (clock st) phone in
  let st := emit [EvCodeRequest phone] (tick st) in
  if sent then
    match input c (clock st) phone with
    | Some code =>
        let st := tick st in
        let signed := sign_in c (clock st) phone code in
        let st := emit [EvSignIn phone code] (tick st) in
        if signed then emit [EvReport phone LoggedIn] st
        else emit [EvReport phone Error] st
    | None => emit [EvReport phone Error] (tick st)
    end
  else emit [EvReport phone Error] st.

(** One turn of [for phone in config['accounts']]. *)
Definition init_phone (c : Console) (st : State) (phone : string) : State :=
  let session_file := ("sessions/" +:+ phone)%string in
  let connected := connect c (clock st) session_file in
  let st := emit [EvConnect session_file] (tick st) in
  let st :=
    if connected then
      let authorized := is_user_authorized c (clock st) session_file in
      let st := tick st in
      match authorized with
      | Some false => log_in c phone st
      | Some true => emit [EvReport phone AlreadyAuthorized] st
      | None => emit [EvReport phone Error] st
      end
    else emit [EvReport phone Error] st in
  emit [EvDisconnect session_file] st.

Definition init_session (accounts : list string) (c : Console) : State :=
  foldl (init_phone c) start accounts.

End InitSession.

(** * Notions used in the statements *)

(** ** Collector *)

(** The four passes insert records one after the other; [put] is the single
    assignment [self.all_members[user.id] = self.user_to_dict(user)]. *)
Definition put (d : list (Z * CandidateRecord)) (c : CandidateRecord)
  : list (Z * CandidateRecord) :=
  dict_set (c_id c) c d.

(** The test made on a sender and on a participant. *)
Definition passes_filter (u : GetMembers.User) : bool :=
  negb (GetMembers.bot u) && negb (GetMembers.deleted u).

(** The records a pass assigns, in the order it assigns them: for the
    senders of messages, for participants and for the peers of reactions. *)
Definition kept_senders (messages : list GetMembers.Message) : list CandidateRecord :=
  omap (fun m =>
          match GetMembers.sender m with
          | Some (GetMembers.IsUser u) =>
              if passes_filter u then Some (GetMembers.user_to_dict u) else None
          | _ => None
          end) messages.

Definition kept_participants (users : list GetMembers.Entity) : list CandidateRecord :=
  omap (fun e =>
          match e with
          | GetMembers.IsUser u =>
              if passes_filter u then Some (GetMembers.user_to_dict u) else None
          | GetMembers.NotUser => None
          end) users.

Definition kept_reactors (peers : list GetMembers.Entity) : list CandidateRecord :=
  omap (fun e =>
          match e with
          | GetMembers.IsUser u =>
              if negb (GetMembers.bot u) then Some (GetMembers.user_to_dict u) else None
          | GetMembers.NotUser => None
          end) peers.

(** The last record of [recs] carrying the id [k]. *)
Definition last_with_id (k : Z) (recs : list CandidateRecord) : option CandidateRecord :=
  last (filter (fun c => c_id c = k) recs).

(** The first record of [recs] carrying the id [k]. *)
Definition first_with_id (k : Z) (recs : list CandidateRecord) : option CandidateRecord :=
  head (filter (fun c => c_id c = k) recs).

Definition no_bot (c : CandidateRecord) : Prop := c_bot c = false.

(** A scraper whose dictionary holds no bot. *)
Definition clean (self : GetMembers.MemberScraper) : Prop :=
  Forall no_bot (dict_values (GetMembers.all_members self)).

(** The requests of a journal, in order. *)
Definition requests (j : list GetMembers.Event) : list GetMembers.ParticipantsFilter :=
  omap (fun e => match e with GetMembers.EvRequest f => Some f | _ => None end) j.

(** A dictionary as the scraper keeps it: no id twice, and every record
    stored under its own id. *)
Definition keyed (d : list (Z * CandidateRecord)) : Prop :=
  NoDup (dict_keys d) /\ Forall (fun kc => c_id kc.2 = kc.1) d.

(** The peers [get_members_from_reactions] gets to see: those of the
    messages whose reactions could be fetched, the first call being number
    [t]. *)
Fixpoint answered_reactions (src : GetMembers.Source) (t : nat)
  (messages : list GetMembers.Message) : list GetMembers.Entity :=
  match messages with
  | [] => []
  | m :: ms =>
      default [] (GetMembers.get_message_reactions src t (GetMembers.msg_id m))
      ++ answered_reactions src (S t) ms
  end.

(** The session is usable: it connects, is authorized, and the source group
    is found. *)
Definition source_ready (src : GetMembers.Source) : bool :=
  match GetMembers.connect src, GetMembers.is_user_authorized src,
        GetMembers.get_entity src with
  | Ok _, Ok true, Ok _ => true
  | _, _, _ => false
  end.

(** The four passes in the order [run] makes them. *)
Definition scrape (src : GetMembers.Source) (self : GetMembers.MemberScraper)
  : GetMembers.MemberScraper :=
  GetMembers.get_members_by_search src
    (GetMembers.get_members_from_reactions src 100
       (GetMembers.get_members_from_messages src 3000
          (GetMembers.get_members_from_recent src self))).

(** Where an entry of the dictionary can come from: a participant or a
    sender that is neither a bot nor deleted, a reactor that is no bot. *)
Definition live_participant (users : list GetMembers.Entity)
  (kc : Z * CandidateRecord) : Prop :=
  exists u, GetMembers.IsUser u ∈ users
            /\ GetMembers.bot u = false /\ GetMembers.deleted u = false
            /\ kc = (GetMembers.id u, GetMembers.user_to_dict u).

Definition live_sender (messages : list GetMembers.Message)
  (kc : Z * CandidateRecord) : Prop :=
  exists m u, m ∈ messages
              /\ GetMembers.sender m = Some (GetMembers.IsUser u)
              /\ GetMembers.bot u = false /\ GetMembers.deleted u = false
              /\ kc = (GetMembers.id u, GetMembers.user_to_dict u).

Definition human_reactor (peers : list GetMembers.Entity)
  (kc : Z * CandidateRecord) : Prop :=
  exists u, GetMembers.IsUser u ∈ peers
            /\ GetMembers.bot u = false
            /\ kc = (GetMembers.id u, GetMembers.user_to_dict u).

(** ** Session bootstrap *)

Definition bootstrap_session (phone : string) : string :=
  ("sessions/" +:+ phone)%string.

(** What [init_session] does for one account: it connects, possibly asks
    for a code, possibly then signs in with the code typed, prints one
    report and disconnects.  Success is only reported after a sign-in, and
    "already authorized" only when no code was asked for. *)
Definition account_block (phone : string) (evs : list InitSession.Event) : Prop :=
  exists mid r,
    evs = InitSession.EvConnect (bootstrap_session phone)
          :: mid ++ [InitSession.EvReport phone r;
                     InitSession.EvDisconnect (bootstrap_session phone)]
    /\ ((mid = [] /\ r <> InitSession.LoggedIn)
        \/ (mid = [InitSession.EvCodeRequest phone] /\ r = InitSession.Error)
        \/ (exists code,
              mid = [InitSession.EvCodeRequest phone; InitSession.EvSignIn phone code]
              /\ r <> InitSession.AlreadyAuthorized)).

(** An event that asks the operator for nothing and logs nobody in. *)
Definition no_login (e : InitSession.Event) : Prop :=
  match e with
  | InitSession.EvCodeRequest _ => False
  | InitSession.EvSignIn _ _ => False
  | InitSession.EvReport _ InitSession.LoggedIn => False
  | _ => True
  end.

(** A console on which every session is already authorized. *)
Definition all_authorized (c : InitSession.Console) : Prop :=
  forall t s, InitSession.is_user_authorized c t s = Some true.

(** ** Dispatcher *)

Import AddMembers.

(** The state a run has reached, when it got as far as the main loop. *)
Definition state_of (r : Result) : option State :=
  match r with
  | Completed st => Some st
  | Running _ _ st => Some st
  | NoMembers | Crashed => None
  end.

(** The candidates of the invitations of a journal, in order. *)
Definition attempted (j : list Event) : list CandidateRecord :=
  omap (fun e => match e with EvInvite _ u _ => Some u | _ => None end) j.

(** The successful invitations of a journal. *)
Definition invited (j : list Event) : list CandidateRecord :=
  omap (fun e => match e with EvInvite _ u Invited => Some u | _ => None end) j.

(** Every flood wait of the journal is directly followed by a sleep of the
    duration it carries. *)
Fixpoint waits_respected (j : list Event) : Prop :=
  match j with
  | [] => True
  | EvInvite _ _ (FloodWaitError seconds) :: rest =>
      match rest with
      | EvSleep d :: _ => d = seconds
      | _ => False
      end /\ waits_respected rest
  | _ :: rest => waits_respected rest
  end.

(** The pair a block of [run] leaves, however it ends. *)
Definition outcome {A : Type} (r : Flow A) : A :=
  match r with
  | Normal a => a
  | Raised a => a
  end.

(** No counter exceeds the quota and the rotation index is in range. *)
Definition within_quota (cfg : Config) (st : State) : Prop :=
  (forall phone n, stats st !! phone = Some n ->
                   (0 ≤ n ≤ max_adds_per_day_per_account cfg)%Z)
  /\ current_account_index st < length (accounts cfg).

(** An event made through the client of [session_file], or a sleep. *)
Definition on_session (session_file : string) (e : Event) : Prop :=
  match e with
  | EvInvite s _ _ => s = session_file
  | EvSleep _ => True
  | _ => False
  end.

Definition is_peer_flood (e : Event) : bool :=
  match e with
  | EvInvite _ _ PeerFloodError => true
  | _ => false
  end.

(** The number of flood-of-requests answers in a journal. *)
Definition peer_floods (evs : list Event) : nat :=
  length (filter (fun e => is_peer_flood e = true) evs).

(** What the inner loop has done since it was entered in [st0]. *)
Definition same_client (cfg : Config) (session_file current_phone : string)
  (st0 st : State) : Prop :=
  (exists evs,
      journal st = journal st0 ++ evs
      /\ Forall (on_session session_file) evs
      /\ current_account_index st =
           Nat.iter (peer_floods evs)
             (fun i => (i + 1) `mod` length (accounts cfg))
             (current_account_index st0))
  /\ delete current_phone (stats st) = delete current_phone (stats st0)
  /\ stats st !! current_phone =
       (fun n => n + (Z.of_nat (length (added st)) - Z.of_nat (length (added st0))))%Z
         <$> stats st0 !! current_phone.

(** The candidates attempted so far and those left make up the loaded
    list, flood waits were slept through, and only accepted candidates
    were added. *)
Definition popped_once (orig members : list CandidateRecord) (st : State) : Prop :=
  attempted (journal st) ++ members = orig
  /\ waits_respected (journal st)
  /\ forall a, a ∈ added st -> a ∈ invited (journal st).

(** Every account of [daily_stats] has used up its quota. *)
Definition exhausted (cfg : Config) (st : State) : Prop :=
  map_Forall (fun _ n => (max_adds_per_day_per_account cfg ≤ n)%Z) (stats st).

(** Every session connects and is authorized, and the target is found. *)
Definition sessions_ready (tg : Telegram) : Prop :=
  (forall t s, connect tg t s = true)
  /\ (forall t s, is_user_authorized tg t s = Some true)
  /\ (forall t s, get_entity tg t s = true).

(** Every call of [add_member] returns [True]. *)
Definition every_add_succeeds (cfg : Config) (tg : Telegram) : Prop :=
  forall session_file user_data st,
    (add_member cfg tg session_file user_data st).1 = true.

(** The state of the rotation when the main loop tests its condition:
    [orig] is the loaded list, [a] the number of candidates added, [i] the
    account in use and [n] its counter; the accounts before it are full,
    those after it unused. *)
Definition filling (cfg : Config) (orig : list CandidateRecord) (i : nat) (n : Z)
  (a : nat) (current_phone : string) (st : State) : Prop :=
  current_account_index st = i
  /\ accounts cfg !! i = Some current_phone
  /\ added st = take a orig
  /\ a ≤ length orig
  /\ (Z.of_nat a = Z.of_nat i * max_adds_per_day_per_account cfg + n)%Z
  /\ (0 ≤ n ≤ max_adds_per_day_per_account cfg)%Z
  /\ (Z.of_nat a ≤ members_to_add cfg)%Z
  /\ forall j p, accounts cfg !! j = Some p ->
       stats st !! p = Some (if decide (j < i) then max_adds_per_day_per_account cfg
                             else if decide (j = i) then n else 0%Z).

(** The sum of the daily counters. *)
Definition total (m : gmap string Z) : Z :=
  map_fold (fun _ n acc => (n + acc)%Z) 0%Z m.

(** The sessions connected and disconnected by a journal, in order. *)
Definition connects (j : list Event) : list string :=
  omap (fun e => match e with EvConnect s => Some s | _ => None end) j.

Definition disconnects (j : list Event) : list string :=
  omap (fun e => match e with EvDisconnect s => Some s | _ => None end) j.

(** How a turn of the main loop ends: [finally], after [except] or not. *)
Definition turn_end (session_file : string) (tail : list Event) : Prop :=
  tail = [EvDisconnect session_file] \/ tail = [EvSleep 60; EvDisconnect session_file].

(** The progress file holds the current added list and counters, or there
    is no file yet and nothing has been added. *)
Definition checkpoint_current (st : State) : Prop :=
  (progress_file st = None /\ added st = [])
  \/ progress_file st = Some {| added_members := added st; daily_stats := stats st |}.

(** The books of a run: the phone in use is a configured account, there is
    a counter for each configured account and for nothing else, the
    counters add up to the number of records added, and the checkpoint is
    current. *)
Definition ledger (cfg : Config) (current_phone : string) (st : State) : Prop :=
  current_phone ∈ accounts cfg
  /\ dom (stats st) = list_to_set (accounts cfg)
  /\ total (stats st) = Z.of_nat (length (added st))
  /\ checkpoint_current st.

(** What the inner loop does to the added list and to the progress file. *)
Definition inner_books (cfg : Config) (st0 st : State) : Prop :=
  added st0 `prefix_of` added st
  /\ (Z.of_nat (length (added st))
      ≤ Z.max (Z.of_nat (length (added st0))) (members_to_add cfg))%Z
  /\ ((added st = added st0 /\ progress_file st = progress_file st0
       /\ stats st = stats st0)
      \/ progress_file st
         = Some {| added_members := added st; daily_stats := stats st |}).

(** An invitation goes through the session file of a configured account. *)
Definition through_configured (cfg : Config) (e : Event) : Prop :=
  match e with
  | EvInvite s _ _ => exists phone, phone ∈ accounts cfg /\ s = session_of phone
  | _ => True
  end.

(** An invitation goes through the client of [session_file]. *)
Definition invited_through (session_file : string) (e : Event) : Prop :=
  match e with
  | EvInvite s _ _ => s = session_file
  | _ => True
  end.

(** What a turn of the main loop entered in [st] sends: its invitations go
    through the session of [current_phone], and there are some only when, in
    this very turn (the calls numbered from [clock st]), the client has
    connected, has answered that it is authorized and has found the target
    group. *)
Definition turn_through_authorized (cfg : Config) (tg : Telegram)
  (members : list CandidateRecord) (current_phone : string) (st : State) : Prop :=
  let s := session_of current_phone in
  let next := turn cfg tg members current_phone st in
  exists evs,
    journal next.2.2 = journal st ++ evs
    /\ Forall (invited_through s) evs
    /\ (attempted evs = []
        \/ (connect tg (clock st) s = true
            /\ is_user_authorized tg (S (clock st)) s = Some true
            /\ get_entity tg (S (S (clock st))) s = true)).

(** The two tests of the main loop that end a turn by [switch_account] and
    [continue]: the session is not authorized (line 142), or the counter of
    the phone in use has reached the quota (line 153). *)
Definition rotates_away (cfg : Config) (tg : Telegram) (current_phone : string)
  (st : State) : bool :=
  let s := session_of current_phone in
  connect tg (clock st) s
  && match is_user_authorized tg (S (clock st)) s with
     | Some false => true
     | Some true =>
         get_entity tg (S (S (clock st))) s
         && match stats st !! current_phone with
            | Some n => bool_decide (max_adds_per_day_per_account cfg ≤ n)%Z
            | None => false
            end
     | None => false
     end.

(** What a turn of the main loop does to the rotation.  The index moves by
    one step of the round robin for each flood-of-requests answer of the
    turn, and by one more when the turn rotates away from its account.  In
    that case nothing is attempted or recorded, the index becomes
    (index + 1) modulo the number of accounts, 0 after the last account, and
    the phone used next is the account at the new index; in any other case
    the phone in use stays. *)
Definition round_robin_turn (cfg : Config) (tg : Telegram)
  (members : list CandidateRecord) (current_phone : string) (st : State) : Prop :=
  let next := turn cfg tg members current_phone st in
  let step := fun i => (i + 1) `mod` length (accounts cfg) in
  (exists evs,
      journal next.2.2 = journal st ++ evs
      /\ current_account_index next.2.2
         = Nat.iter (peer_floods evs
                     + (if rotates_away cfg tg current_phone st then 1 else 0))
             step (current_account_index st))
  /\ if rotates_away cfg tg current_phone st then
       next.1 = members
       /\ attempted (journal next.2.2) = attempted (journal st)
       /\ stats next.2.2 = stats st /\ added next.2.2 = added st
       /\ current_account_index next.2.2 = step (current_account_index st)
       /\ (S (current_account_index st) = length (accounts cfg) ->
           current_account_index next.2.2 = 0)
       /\ accounts cfg !! current_account_index next.2.2 = Some next.2.1
     else next.2.1 = current_phone.

(** The state [add_member] leaves after a flood-of-requests answer: the
    invitation and the sleep of 60 seconds are on the journal, and of the
    object only the rotation index has changed. *)
Definition flooded (cfg : Config) (session_file : string) (user_data : CandidateRecord)
  (st : State) : State :=
  emit [EvInvite session_file user_data PeerFloodError; EvSleep 60]
    (set_index ((current_account_index st + 1) `mod` length (accounts cfg)) (tick st)).

(** The inner loop, entered in [st] with the phone [current_phone], whose
    counter is [n], gets a flood-of-requests answer for [user_data]: the loop
    goes on with the candidates left, from the state [flooded], with the
    same session file and the same phone; what follows goes through that
    session, starts with the next candidate, and every accepted invitation
    is appended to the added list and counted on [current_phone], the other
    counters staying as they are. *)
Definition flood_keeps_client (cfg : Config) (tg : Telegram)
  (session_file current_phone : string) (user_data : CandidateRecord)
  (rest : list CandidateRecord) (st : State) (n : Z) : Prop :=
  let st1 := flooded cfg session_file user_data st in
  let st' := (outcome (add_members cfg tg session_file current_phone
                         (user_data :: rest) st)).2 in
  add_member cfg tg session_file user_data st = (false, st1)
  /\ add_members cfg tg session_file current_phone (user_data :: rest) st
     = add_members cfg tg session_file current_phone rest st1
  /\ exists evs,
       journal st' = journal st1 ++ evs
       /\ Forall (on_session session_file) evs
       /\ match rest with
          | [] => evs = []
          | next :: _ => exists r tail, evs = EvInvite session_file next r :: tail
          end
       /\ added st' = added st ++ invited evs
       /\ stats st'
          = <[current_phone := (n + Z.of_nat (length (invited evs)))%Z]> (stats st)
       /\ current_account_index st'
          = Nat.iter (peer_floods evs) (fun i => (i + 1) `mod` length (accounts cfg))
              (current_account_index st1).

(** The added records are among the candidates attempted, in the order of
    the attempts, and no more than the target. *)
Definition in_file_order (cfg : Config) (st : State) : Prop :=
  added st `sublist_of` attempted (journal st)
  /\ (Z.of_nat (length (added st)) ≤ Z.max 0 (members_to_add cfg))%Z.

(** ** Concrete inputs *)

Definition person (i : Z) (name : string) : GetMembers.User :=
  {| GetMembers.id := i; GetMembers.access_hash := 0;
     GetMembers.username := Some name; GetMembers.first_name := None;
     GetMembers.last_name := None; GetMembers.phone := None;
     GetMembers.bot := false; GetMembers.deleted := false;
     GetMembers.verified := false; GetMembers.restricted := false;
     GetMembers.scam := false; GetMembers.fake := false;
     GetMembers.premium := false |}.

(** The scrape of the scenario: ids 1, 2 and 1 again, with other fields. *)
Definition duplicate_scrape : list GetMembers.Entity :=
  [ GetMembers.IsUser (person 1 "first");
    GetMembers.IsUser (person 2 "other");
    GetMembers.IsUser (person 1 "second") ].

(** A source whose recent participants are [recent] and which has nothing
    else to offer. *)
Definition quiet_source (recent : list GetMembers.Entity) : GetMembers.Source :=
  {| GetMembers.connect := Ok tt;
     GetMembers.is_user_authorized := Ok true;
     GetMembers.get_entity := Ok tt;
     GetMembers.participants := fun _ f =>
       match f with
       | GetMembers.ChannelParticipantsRecent => Ok recent
       | GetMembers.ChannelParticipantsSearch _ => Ok []
       end;
     GetMembers.iter_messages := fun _ => ([], false);
     GetMembers.get_messages := fun _ => Ok [];
     GetMembers.get_message_reactions := fun _ _ => None |}.

(** A source that answers the first request with a 30 second flood wait and
    every later one with a user. *)
Definition flooded_once : GetMembers.Source :=
  {| GetMembers.connect := Ok tt;
     GetMembers.is_user_authorized := Ok true;
     GetMembers.get_entity := Ok tt;
     GetMembers.participants := fun t _ =>
       match t with
       | 0 => FloodWait 30
       | S _ => Ok [GetMembers.IsUser (person (Z.of_nat t) "someone")]
       end;
     GetMembers.iter_messages := fun _ => ([], false);
     GetMembers.get_messages := fun _ => Ok [];
     GetMembers.get_message_reactions := fun _ _ => None |}.

Definition candidate (i : Z) : CandidateRecord :=
  GetMembers.user_to_dict (person i "someone").

Definition config_of (phones : list string) (target quota lo hi : Z) : Config :=
  {| accounts := phones;
     group_source := "source";
     group_target := "target";
     members_to_add := target;
     min_delay := lo;
     max_delay := hi;
     max_adds_per_day_per_account := quota |}.

(** Every session connects and is authorized, the target group is found,
    and the service answers every invitation as [answer] tells. *)
Definition service (answer : nat -> CandidateRecord -> InviteResult) : Telegram :=
  {| connect := fun _ _ => true;
     is_user_authorized := fun _ _ => Some true;
     get_entity := fun _ _ => true;
     invite := fun t _ user_data => answer t user_data;
     random := fun t => Z.of_nat t |}.

(** A service that accepts every invitation. *)
Definition willing : Telegram := service (fun _ _ => Invited).

Definition two_phones_state : State :=
  match state_of (run 5 (config_of ["+100"; "+200"] 3 1 5 5) willing
                    (Some [candidate 1; candidate 2; candidate 3])
                    (init (config_of ["+100"; "+200"] 3 1 5 5))) with
  | Some st => st
  | None => init (config_of ["+100"; "+200"] 3 1 5 5)
  end.

(** A service that answers the invitation of the candidate of id 2 with a
    rate limit of 30 seconds and accepts every other one. *)
Definition rate_limiting : Telegram :=
  service (fun _ user_data =>
             if bool_decide (c_id user_data = 2%Z) then FloodWaitError 30 else Invited).

Definition rate_limited_state : State :=
  match state_of (run 3 (config_of ["+100"] 2 5 5 5) rate_limiting
                    (Some [candidate 1; candidate 2; candidate 3])
                    (init (config_of ["+100"] 2 5 5 5))) with
  | Some st => st
  | None => init (config_of ["+100"] 2 5 5 5)
  end.

(** The state after one turn of a run whose delays are configured as
    5..3, on a service that accepts every invitation. *)
Definition misconfigured_state : State :=
  match state_of (run 1 (config_of ["+100"] 2 5 5 3) willing
                    (Some [candidate 1; candidate 2; candidate 3])
                    (init (config_of ["+100"] 2 5 5 3))) with
  | Some st => st
  | None => init (config_of ["+100"] 2 5 5 3)
  end.

(** A service that answers the invitation of the candidate of id 1 with a
    flood of requests and accepts the other ones. *)
Definition flooding_first : Telegram :=
  service (fun _ user_data =>
             if bool_decide (c_id user_data = 1%Z) then PeerFloodError else Invited).

(** A console whose sessions all connect and are authorized. *)
Definition ready_console : InitSession.Console :=
  {| InitSession.connect := fun _ _ => true;
     InitSession.is_user_authorized := fun _ _ => Some true;
     InitSession.send_code_request := fun _ _ => true;
     InitSession.input := fun _ _ => Some "12345"%string;
     InitSession.sign_in := fun _ _ _ => true |}.

(** ** Tactics *)

Ltac fields :=
  cbn [current_account_index stats added progress_file clock journal
       set_index set_stats set_added tick emit save_progress switch_account
       added_members daily_stats fst snd] in *.

(** Peels the events [turn] writes around the inner loop off a goal, given
    that the property at hand is kept by [emit] of events that are no
    invitation. *)
Ltac frame_steps Hemit :=
  repeat (apply Hemit; [reflexivity | cbn; tauto |]).

(** * Properties of the Collector *)

Section dict_facts.
Context {V : Type}.
Implicit Types (d : list (Z * V)) (k : Z) (v : V).

Lemma dict_get_set d k k' v :
  dict_get k' (dict_set k v d) = if bool_decide (k = k') then Some v else dict_get k' d.
Proof.
  induction d as [|[k0 v0] d IH]; csimpl.
  - repeat case_bool_decide; congruence.
  - repeat (case_bool_decide; csimpl); try congruence; auto.
Qed.

Lemma dict_get_Some_keys d k v : dict_get k d = Some v -> k ∈ dict_keys d.
Proof.
  unfold dict_keys. induction d as [|[k0 v0] d IH]; csimpl; [done|].
  case_bool_decide; intros; subst; [left | right; auto].
Qed.

Lemma dict_keys_set_known d k v :
  k ∈ dict_keys d -> dict_keys (dict_set k v d) = dict_keys d.
Proof.
  unfold dict_keys. induction d as [|[k0 v0] d IH]; csimpl.
  - by intros ?%elem_of_nil.
  - case_bool_decide; csimpl; [done|].
    intros [?|?]%elem_of_cons; [congruence|]. by rewrite IH.
Qed.

Lemma dict_keys_set_new d k v :
  k ∉ dict_keys d -> dict_keys (dict_set k v d) = dict_keys d ++ [k].
Proof.
  unfold dict_keys. induction d as [|[k0 v0] d IH]; csimpl; [done|].
  intros Hn. case_bool_decide; csimpl.
  - subst. exfalso. apply Hn. left.
  - rewrite IH; [done|]. intros ?. apply Hn. by right.
Qed.

Lemma dict_set_keeps_keys d k k' v : k' ∈ dict_keys d -> k' ∈ dict_keys (dict_set k v d).
Proof.
  intros Hk. destruct (decide (k ∈ dict_keys d)).
  - by rewrite dict_keys_set_known.
  - rewrite dict_keys_set_new by done. apply elem_of_app. by left.
Qed.

Lemma dict_set_key_in d k v : k ∈ dict_keys (dict_set k v d).
Proof.
  apply dict_get_Some_keys with v. rewrite dict_get_set.
  by rewrite bool_decide_eq_true_2.
Qed.

Lemma dict_values_set d k v (P : V -> Prop) :
  P v -> Forall P (dict_values d) -> Forall P (dict_values (dict_set k v d)).
Proof.
  unfold dict_values. intros Hv. induction d as [|[k0 v0] d IH]; csimpl.
  - intros _. by constructor.
  - intros [? ?]%Forall_cons. case_bool_decide; csimpl; constructor; auto.
Qed.

Lemma dict_keys_NoDup_set d k v :
  NoDup (dict_keys d) -> NoDup (dict_keys (dict_set k v d)).
Proof.
  intros Hd. destruct (decide (k ∈ dict_keys d)).
  - by rewrite dict_keys_set_known.
  - rewrite dict_keys_set_new by done. apply NoDup_app. split; [done|].
    split; [|apply NoDup_singleton].
    intros x Hx ->%list_elem_of_singleton. done.
Qed.

End dict_facts.

Lemma keep_sender_put d messages :
  foldl GetMembers.keep_sender d messages = foldl put d (kept_senders messages).
Proof.
  revert d. induction messages as [|m ms IH]; intros d; [done|].
  cbn [foldl]. rewrite IH. unfold kept_senders. cbn [omap list_omap].
  unfold GetMembers.keep_sender, passes_filter.
  destruct (GetMembers.sender m) as [[u|]|]; try done.
  destruct (negb (GetMembers.bot u) && negb (GetMembers.deleted u)); done.
Qed.

Lemma keep_participant_put d users :
  foldl GetMembers.keep_participant d users = foldl put d (kept_participants users).
Proof.
  revert d. induction users as [|e es IH]; intros d; [done|].
  cbn [foldl]. rewrite IH. unfold kept_participants. cbn [omap list_omap].
  unfold GetMembers.keep_participant, passes_filter.
  destruct e as [u|]; try done.
  destruct (negb (GetMembers.bot u) && negb (GetMembers.deleted u)); done.
Qed.

Lemma keep_reactor_put d peers :
  foldl GetMembers.keep_reactor d peers = foldl put d (kept_reactors peers).
Proof.
  revert d. induction peers as [|e es IH]; intros d; [done|].
  cbn [foldl]. rewrite IH. unfold kept_reactors. cbn [omap list_omap].
  unfold GetMembers.keep_reactor.
  destruct e as [u|]; try done.
  destruct (negb (GetMembers.bot u)); done.
Qed.

Lemma put_get d recs k :
  dict_get k (foldl put d recs) =
    match last_with_id k recs with
    | Some c => Some c
    | None => dict_get k d
    end.
Proof.
  unfold last_with_id.
  induction recs as [|c recs IH] using rev_ind; [done|].
  rewrite foldl_app, filter_app. cbn [foldl]. unfold put at 1.
  rewrite dict_get_set. rewrite filter_cons, filter_nil.
  case_bool_decide as Hk.
  - rewrite decide_True by done. by rewrite last_snoc.
  - rewrite decide_False by done. by rewrite app_nil_r.
Qed.

Lemma put_keeps_keys d recs k :
  k ∈ dict_keys d -> k ∈ dict_keys (foldl put d recs).
Proof.
  revert d. induction recs as [|c recs IH]; intros d Hk; [done|].
  cbn [foldl]. apply IH. by apply dict_set_keeps_keys.
Qed.

Lemma put_adds_keys d recs c :
  c ∈ recs -> c_id c ∈ dict_keys (foldl put d recs).
Proof.
  revert d. induction recs as [|c' recs IH]; intros d Hc.
  - by apply elem_of_nil in Hc.
  - cbn [foldl]. apply elem_of_cons in Hc as [->|Hc].
    + apply put_keeps_keys. apply dict_set_key_in.
    + by apply IH.
Qed.

Lemma put_known_keys d recs :
  (forall c, c ∈ recs -> c_id c ∈ dict_keys d) ->
  dict_keys (foldl put d recs) = dict_keys d.
Proof.
  revert d. induction recs as [|c recs IH]; intros d Hin; [done|].
  cbn [foldl]. assert (c_id c ∈ dict_keys d) as Hc by (apply Hin; left).
  rewrite IH.
  - by apply dict_keys_set_known.
  - intros c' Hc'. unfold put. rewrite dict_keys_set_known by done.
    apply Hin. by right.
Qed.

Lemma put_no_bot d recs :
  Forall no_bot recs -> Forall no_bot (dict_values d) ->
  Forall no_bot (dict_values (foldl put d recs)).
Proof.
  revert d. induction recs as [|c recs IH]; intros d Hr Hd; [done|].
  apply Forall_cons in Hr as [? ?].
  cbn [foldl]. apply IH; [done|]. by apply dict_values_set.
Qed.

Lemma put_NoDup d recs :
  NoDup (dict_keys d) -> NoDup (dict_keys (foldl put d recs)).
Proof.
  revert d. induction recs as [|c recs IH]; intros d Hd; [done|].
  cbn [foldl]. apply IH. by apply dict_keys_NoDup_set.
Qed.

(** Assigning the same records a second time changes neither the keys nor
    any stored record. *)
Lemma put_twice d recs :
  let once := foldl put d recs in
  let twice := foldl put once recs in
  dict_keys twice = dict_keys once /\ forall k, dict_get k twice = dict_get k once.
Proof.
  intros once twice. split.
  - apply put_known_keys. intros c Hc. by apply put_adds_keys.
  - intros k. unfold twice. rewrite put_get. unfold once at 1.
    destruct (last_with_id k recs) as [c|] eqn:Hl; [|done].
    unfold once. rewrite put_get. by rewrite Hl.
Qed.

Lemma kept_senders_no_bot messages : Forall no_bot (kept_senders messages).
Proof.
  unfold kept_senders. induction messages as [|m ms IH]; [constructor|].
  cbn [omap list_omap]. destruct (GetMembers.sender m) as [[u|]|]; try done.
  unfold passes_filter. destruct (GetMembers.bot u) eqn:Hb; [done|].
  destruct (GetMembers.deleted u); [done|]. constructor; done.
Qed.

Lemma kept_participants_no_bot users : Forall no_bot (kept_participants users).
Proof.
  unfold kept_participants. induction users as [|e es IH]; [constructor|].
  cbn [omap list_omap]. destruct e as [u|]; try done.
  unfold passes_filter. destruct (GetMembers.bot u) eqn:Hb; [done|].
  destruct (GetMembers.deleted u); [done|]. constructor; done.
Qed.

Lemma kept_reactors_no_bot peers : Forall no_bot (kept_reactors peers).
Proof.
  unfold kept_reactors. induction peers as [|e es IH]; [constructor|].
  cbn [omap list_omap]. destruct e as [u|]; try done.
  destruct (GetMembers.bot u) eqn:Hb; [done|]. constructor; done.
Qed.

Lemma get_members_from_recent_clean src self :
  clean self -> clean (GetMembers.get_members_from_recent src self).
Proof.
  unfold clean, GetMembers.get_members_from_recent. intros Hc.
  destruct (GetMembers.participants src _ _); try done. cbn.
  rewrite keep_participant_put. apply put_no_bot; [apply kept_participants_no_bot | done].
Qed.

Lemma get_members_from_messages_clean src limit self :
  clean self -> clean (GetMembers.get_members_from_messages src limit self).
Proof.
  unfold clean, GetMembers.get_members_from_messages. intros Hc. cbn.
  rewrite keep_sender_put. apply put_no_bot; [apply kept_senders_no_bot | done].
Qed.

Lemma reactions_of_message_clean src messages acc :
  Forall no_bot (dict_values acc.1) ->
  Forall no_bot (dict_values (foldl (GetMembers.reactions_of_message src) acc messages).1).
Proof.
  revert acc. induction messages as [|m ms IH]; intros acc Hc; [done|].
  cbn [foldl]. apply IH. unfold GetMembers.reactions_of_message.
  destruct (GetMembers.get_message_reactions src _ _); [|done]. cbn.
  rewrite keep_reactor_put. apply put_no_bot; [apply kept_reactors_no_bot | done].
Qed.

Lemma get_members_from_reactions_clean src limit self :
  clean self -> clean (GetMembers.get_members_from_reactions src limit self).
Proof.
  unfold clean, GetMembers.get_members_from_reactions. intros Hc.
  destruct (GetMembers.get_messages src limit); try done. cbn.
  by apply reactions_of_message_clean.
Qed.

Lemma search_pattern_clean src self pattern :
  clean self -> clean (GetMembers.search_pattern src self pattern).
Proof.
  unfold clean, GetMembers.search_pattern. intros Hc.
  destruct (GetMembers.participants src _ _); try done. cbn.
  rewrite keep_participant_put. apply put_no_bot; [apply kept_participants_no_bot | done].
Qed.

Lemma get_members_by_search_clean src self :
  clean self -> clean (GetMembers.get_members_by_search src self).
Proof.
  unfold GetMembers.get_members_by_search. generalize GetMembers.search_patterns.
  intros ps. revert self. induction ps as [|p ps IH]; intros self Hc; [done|].
  cbn [foldl]. apply IH. by apply search_pattern_clean.
Qed.

Lemma search_pattern_requests src self pattern :
  requests (GetMembers.journal (GetMembers.search_pattern src self pattern)) =
  requests (GetMembers.journal self) ++ [GetMembers.ChannelParticipantsSearch pattern].
Proof.
  unfold GetMembers.search_pattern, requests.
  destruct (GetMembers.participants src _ _); cbn; by rewrite omap_app.
Qed.

Lemma search_pattern_clock src self pattern :
  GetMembers.clock (GetMembers.search_pattern src self pattern) = S (GetMembers.clock self).
Proof.
  unfold GetMembers.search_pattern.
  by destruct (GetMembers.participants src _ _).
Qed.

Lemma search_loop_requests src patterns self :
  let out := foldl (GetMembers.search_pattern src) self patterns in
  requests (GetMembers.journal out) =
    requests (GetMembers.journal self) ++ (GetMembers.ChannelParticipantsSearch <$> patterns)
  /\ GetMembers.clock out = GetMembers.clock self + length patterns.
Proof.
  revert self. induction patterns as [|p ps IH]; intros self; cbn [foldl].
  - cbn. rewrite app_nil_r. split; [done | lia].
  - destruct (IH (GetMembers.search_pattern src self p)) as [Hr Hc].
    cbn zeta in Hr, Hc. rewrite Hr, Hc, search_pattern_requests, search_pattern_clock.
    rewrite <- app_assoc. split; [done | cbn; lia].
Qed.

(** ** Claims about the Collector *)

(** C1, as stated, fails: in the scenario of the spec the Candidate Set has
    two entries, ids 1 and 2, but the record kept under id 1 is the one seen
    last, not the one seen first; and a record already stored under id 1 is
    overwritten by a later pass. *)
Lemma first_seen_record_is_overwritten :
  let out := GetMembers.run (quiet_source duplicate_scrape) GetMembers.init in
  let d := GetMembers.all_members (GetMembers.scraper out) in
  length d = 2
  /\ dict_keys d = [1%Z; 2%Z]
  /\ dict_get 1 d <> first_with_id 1 (kept_participants duplicate_scrape)
  /\ dict_get 1 d <> Some (GetMembers.user_to_dict (person 1 "first"))
  /\ dict_get 1 (foldl GetMembers.keep_sender
                   [(1%Z, GetMembers.user_to_dict (person 1 "first"))]
                   [ {| GetMembers.msg_id := 7;
                        GetMembers.sender := Some (GetMembers.IsUser (person 1 "second")) |} ])
     <> Some (GetMembers.user_to_dict (person 1 "first")).
Proof.
  vm_compute. repeat split; intros H; discriminate H.
Qed.

(** C1, amended: every pass assigns unconditionally.  After a pass, the
    record stored under an id is the last record the pass assigned to that
    id, or the record it held before when the pass assigned none; no id is
    lost.  In the scenario the persisted set has exactly two entries, ids 1
    and 2 in that order, and id 1 holds the fields seen last. *)
Theorem last_write_wins :
  (forall d users k,
      dict_get k (foldl GetMembers.keep_participant d users) =
        match last_with_id k (kept_participants users) with
        | Some c => Some c
        | None => dict_get k d
        end)
  /\ (forall d messages k,
      dict_get k (foldl GetMembers.keep_sender d messages) =
        match last_with_id k (kept_senders messages) with
        | Some c => Some c
        | None => dict_get k d
        end)
  /\ (forall d peers k,
      dict_get k (foldl GetMembers.keep_reactor d peers) =
        match last_with_id k (kept_reactors peers) with
        | Some c => Some c
        | None => dict_get k d
        end)
  /\ GetMembers.members_file
       (GetMembers.run (quiet_source duplicate_scrape) GetMembers.init)
     = Some [ GetMembers.user_to_dict (person 1 "second");
              GetMembers.user_to_dict (person 2 "other") ].
Proof.
  split; [|split; [|split]].
  - intros. rewrite keep_participant_put. apply put_get.
  - intros. rewrite keep_sender_put. apply put_get.
  - intros. rewrite keep_reactor_put. apply put_get.
  - reflexivity.
Qed.

(** C7: whatever the source answers, the Candidate Set left by a run of the
    Collector, and the list written to the members file, hold no record with
    [bot] true. *)
Theorem collector_keeps_no_bot (src : GetMembers.Source) :
  let out := GetMembers.run src GetMembers.init in
  Forall no_bot (dict_values (GetMembers.all_members (GetMembers.scraper out)))
  /\ match GetMembers.members_file out with
     | Some members_list => Forall no_bot members_list
     | None => True
     end.
Proof.
  assert (clean GetMembers.init) as Hi by constructor.
  assert (clean (GetMembers.get_members_by_search src
                   (GetMembers.get_members_from_reactions src 100
                      (GetMembers.get_members_from_messages src 3000
                         (GetMembers.get_members_from_recent src GetMembers.init)))))
    as Hc.
  { apply get_members_by_search_clean, get_members_from_reactions_clean,
      get_members_from_messages_clean, get_members_from_recent_clean, Hi. }
  unfold GetMembers.run.
  destruct (GetMembers.connect src); try (split; done).
  destruct (GetMembers.is_user_authorized src) as [[|]| |]; try (split; done).
  destruct (GetMembers.get_entity src); try (split; done).
  cbv zeta. unfold clean in Hc.
  set (s := GetMembers.get_members_by_search _ _) in *.
  destruct (dict_values (GetMembers.all_members s)) eqn:Hv;
    unfold GetMembers.nothing_saved;
    cbn [GetMembers.scraper GetMembers.members_file];
    rewrite ?Hv; split; done.
Qed.

(** C9: processing the same pass input a second time leaves the number of
    entries, the ids and the record stored under every id unchanged; this
    holds for the loop of each retrieval strategy and for any state of the
    Candidate Set. *)
Theorem merging_twice_changes_nothing :
  (forall d messages,
      let once := foldl GetMembers.keep_sender d messages in
      let twice := foldl GetMembers.keep_sender once messages in
      length twice = length once /\ dict_keys twice = dict_keys once
      /\ forall k, dict_get k twice = dict_get k once)
  /\ (forall d users,
      let once := foldl GetMembers.keep_participant d users in
      let twice := foldl GetMembers.keep_participant once users in
      length twice = length once /\ dict_keys twice = dict_keys once
      /\ forall k, dict_get k twice = dict_get k once)
  /\ (forall d peers,
      let once := foldl GetMembers.keep_reactor d peers in
      let twice := foldl GetMembers.keep_reactor once peers in
      length twice = length once /\ dict_keys twice = dict_keys once
      /\ forall k, dict_get k twice = dict_get k once)
  /\ (forall src limit self,
      let once := GetMembers.get_members_from_messages src limit self in
      let twice := GetMembers.get_members_from_messages src limit once in
      length (GetMembers.all_members twice) = length (GetMembers.all_members once)
      /\ forall k, dict_get k (GetMembers.all_members twice)
                   = dict_get k (GetMembers.all_members once)).
Proof.
  assert (forall d recs,
      let once := foldl put d recs in
      let twice := foldl put once recs in
      length twice = length once /\ dict_keys twice = dict_keys once
      /\ forall k, dict_get k twice = dict_get k once) as Hput.
  { intros d recs once twice. destruct (put_twice d recs) as [Hk Hg].
    split; [|split; done].
    rewrite <- (length_fmap fst twice), <- (length_fmap fst once).
    unfold dict_keys in Hk. unfold twice, once. by rewrite Hk. }
  split; [|split; [|split]].
  - intros d messages. cbv zeta. rewrite !keep_sender_put. apply Hput.
  - intros d users. cbv zeta. rewrite !keep_participant_put. apply Hput.
  - intros d peers. cbv zeta. rewrite !keep_reactor_put. apply Hput.
  - intros src limit self. cbn. rewrite !keep_sender_put.
    destruct (Hput (GetMembers.all_members self)
                (kept_senders (GetMembers.iter_messages src limit).1)) as (Hl & _ & Hg).
    split; [apply Hl | apply Hg].
Qed.

(** C6, as stated, fails: when the first search request is answered by a
    30 second flood wait, the Collector sleeps 30 seconds and its next
    request is for the next pattern; the pattern "a" is requested once in
    the whole pass although the service would have answered a retry. *)
Lemma flooded_pattern_is_not_retried :
  let out := GetMembers.get_members_by_search flooded_once GetMembers.init in
  GetMembers.journal out !! 0 =
    Some (GetMembers.EvRequest (GetMembers.ChannelParticipantsSearch "a"))
  /\ GetMembers.journal out !! 1 = Some (GetMembers.EvSleep 30)
  /\ GetMembers.journal out !! 2 <>
       Some (GetMembers.EvRequest (GetMembers.ChannelParticipantsSearch "a"))
  /\ GetMembers.journal out !! 2 =
       Some (GetMembers.EvRequest (GetMembers.ChannelParticipantsSearch "e"))
  /\ length (filter (fun f => f = GetMembers.ChannelParticipantsSearch "a")
               (requests (GetMembers.journal out))) = 1.
Proof.
  vm_compute. repeat split. intros H; discriminate H.
Qed.

(** C6, amended: a flood wait on a pattern's request makes the Collector
    sleep for the duration given by the server, leaves the Candidate Set as
    it is and ends the turn; the loop goes on with the next pattern.  Each
    pattern is requested exactly once, in the order of the list, whatever the
    answers are, so the pass always runs to its end. *)
Theorem flood_wait_moves_to_next_pattern (src : GetMembers.Source)
  (self : GetMembers.MemberScraper) :
  let out := GetMembers.get_members_by_search src self in
  requests (GetMembers.journal out) =
    requests (GetMembers.journal self)
    ++ (GetMembers.ChannelParticipantsSearch <$> GetMembers.search_patterns)
  /\ GetMembers.clock out = GetMembers.clock self + length GetMembers.search_patterns
  /\ forall pattern,
       match GetMembers.participants src (GetMembers.clock self)
               (GetMembers.ChannelParticipantsSearch pattern) with
       | FloodWait seconds =>
           GetMembers.search_pattern src self pattern =
             {| GetMembers.all_members := GetMembers.all_members self;
                GetMembers.clock := S (GetMembers.clock self);
                GetMembers.journal :=
                  GetMembers.journal self
                  ++ [ GetMembers.EvRequest (GetMembers.ChannelParticipantsSearch pattern);
                       GetMembers.EvSleep seconds ] |}
       | _ => True
       end.
Proof.
  cbv zeta. unfold GetMembers.get_members_by_search.
  destruct (search_loop_requests src GetMembers.search_patterns self) as [Hr Hc].
  split; [exact Hr | split; [exact Hc |]].
  intros pattern. unfold GetMembers.search_pattern.
  by destruct (GetMembers.participants src _ _).
Qed.

(** * Properties of the Dispatcher *)

Section dispatcher.
Variables (cfg : Config) (tg : Telegram).

Lemma add_member_frame session_file user_data st :
  let st' := (add_member cfg tg session_file user_data st).2 in
  stats st' = stats st /\ added st' = added st
  /\ progress_file st' = progress_file st /\ clock st' = S (clock st).
Proof.
  unfold add_member. destruct (invite tg _ _ _); fields;
    try destruct (randint _ _ _ _); fields; done.
Qed.

Lemma add_member_true session_file user_data st st' :
  add_member cfg tg session_file user_data st = (true, st') ->
  invite tg (clock st) session_file user_data = Invited
  /\ current_account_index st' = current_account_index st
  /\ exists delay,
       randint tg (S (clock st)) (min_delay cfg) (max_delay cfg) = Some delay
       /\ journal st' = journal st ++ [EvInvite session_file user_data Invited; EvSleep delay].
Proof.
  unfold add_member. destruct (invite tg _ _ _); fields; try (intros [=]; fail).
  destruct (randint _ _ _ _) as [delay|] eqn:Hr; intros [=]; subst st'; fields.
  rewrite <- app_assoc. eauto.
Qed.

Lemma randint_range t a b delay :
  randint tg t a b = Some delay -> (a ≤ delay ≤ b)%Z.
Proof.
  unfold randint. case_bool_decide; [|done]. intros [= <-].
  pose proof (Z.mod_pos_bound (random tg t) (b - a + 1)) as Hm. lia.
Qed.

End dispatcher.

Section loops.
Variables (cfg : Config) (tg : Telegram).

(** Proof rule of the inner loop: [I] holds whenever the loop condition is
    tested, [P] when the loop is left. *)
Lemma add_members_rule (I P : list CandidateRecord -> State -> Prop)
  (session_file current_phone : string) :
  (forall st, I [] st -> P [] st) ->
  (forall members st,
      I members st ->
      ¬ (Z.of_nat (length (added st)) < members_to_add cfg)%Z ->
      P members st) ->
  (forall user_data rest st,
      I (user_data :: rest) st ->
      (Z.of_nat (length (added st)) < members_to_add cfg)%Z ->
      let r := add_member cfg tg session_file user_data st in
      match (if r.1 then record_success current_phone user_data r.2 else Normal r.2) with
      | Raised st2 => P rest st2
      | Normal st2 =>
          match stats st2 !! current_phone with
          | None => P rest st2
          | Some n =>
              if bool_decide (max_adds_per_day_per_account cfg ≤ n)%Z
              then P rest st2
              else I rest st2
          end
      end) ->
  forall members st,
    I members st ->
    let out := outcome (add_members cfg tg session_file current_phone members st) in
    P out.1 out.2.
Proof.
  intros Hnil Hstop Hstep members.
  induction members as [|user_data rest IH]; intros st HI.
  - cbn. by apply Hnil.
  - cbn [add_members]. case_bool_decide as Hlt; [|cbn; by apply Hstop].
    specialize (Hstep user_data rest st HI Hlt). cbv zeta in Hstep.
    destruct (add_member cfg tg session_file user_data st) as [ok st1].
    cbn [fst snd] in Hstep.
    destruct (if ok then record_success current_phone user_data st1 else Normal st1)
      as [st2|st2]; [|cbn; done].
    destruct (stats st2 !! current_phone) as [n|]; [|cbn; done].
    case_bool_decide; [cbn; done|]. by apply IH.
Qed.

(** Proof rule of the main loop: an invariant of [turn] holds of every
    state the loop reaches; when the loop is left the target is reached or
    no candidate remains, and the progress has just been saved. *)
Lemma main_loop_rule (I : list CandidateRecord -> string -> State -> Prop) :
  (forall members current_phone st,
      I members current_phone st ->
      (Z.of_nat (length (added st)) < members_to_add cfg)%Z ->
      members <> [] ->
      let next := turn cfg tg members current_phone st in
      I next.1 next.2.1 next.2.2) ->
  forall fuel members current_phone st,
    I members current_phone st ->
    match main_loop fuel cfg tg members current_phone st with
    | Completed st' =>
        exists members' phone' st0,
          I members' phone' st0 /\ st' = save_progress st0
          /\ ((members_to_add cfg ≤ Z.of_nat (length (added st0)))%Z \/ members' = [])
    | Running members' phone' st' => I members' phone' st'
    | _ => False
    end.
Proof.
  intros Hturn fuel. induction fuel as [|fuel IH]; intros members current_phone st HI;
    cbn [main_loop].
  - destruct (bool_decide _ && negb (bool_decide _)) eqn:Hc; [done|].
    exists members, current_phone, st. split; [done|]. split; [done|].
    apply andb_false_iff in Hc as [Hc|Hc].
    + apply bool_decide_eq_false in Hc. left. lia.
    + apply negb_false_iff, bool_decide_eq_true in Hc. by right.
  - destruct (bool_decide _ && negb (bool_decide _)) eqn:Hc.
    + apply andb_true_iff in Hc as [Hlt Hne].
      apply bool_decide_eq_true in Hlt. apply negb_true_iff, bool_decide_eq_false in Hne.
      specialize (Hturn members current_phone st HI Hlt Hne). cbv zeta in Hturn.
      destruct (turn cfg tg members current_phone st) as [m' [p' st']].
      by apply IH.
    + exists members, current_phone, st. split; [done|]. split; [done|].
      apply andb_false_iff in Hc as [Hc|Hc].
      * apply bool_decide_eq_false in Hc. left. lia.
      * apply negb_false_iff, bool_decide_eq_true in Hc. by right.
Qed.

(** More fuel does not change a run that has completed, and resumes one
    that was still running. *)
Lemma main_loop_add fuel extra members current_phone st :
  main_loop (fuel + extra) cfg tg members current_phone st =
    match main_loop fuel cfg tg members current_phone st with
    | Running members' phone' st' => main_loop extra cfg tg members' phone' st'
    | r => r
    end.
Proof.
  revert members current_phone st.
  induction fuel as [|fuel IH]; intros members current_phone st.
  - cbn [Nat.add main_loop].
    destruct (bool_decide _ && negb (bool_decide _)) eqn:Hc; [done|].
    destruct extra; cbn [main_loop]; by rewrite Hc.
  - cbn [Nat.add main_loop].
    destruct (bool_decide _ && negb (bool_decide _)) eqn:Hc; [|done].
    destruct (turn cfg tg members current_phone st) as [m' [p' st']]. apply IH.
Qed.

End loops.

(** ** Quota and rotation *)

Section quota.
Variables (cfg : Config) (tg : Telegram).

Lemma switch_account_in_range st :
  current_account_index st < length (accounts cfg) ->
  current_account_index (switch_account cfg st) < length (accounts cfg).
Proof.
  intros Hi. fields. apply Nat.mod_upper_bound. lia.
Qed.

Lemma add_member_in_range session_file user_data st :
  current_account_index st < length (accounts cfg) ->
  current_account_index (add_member cfg tg session_file user_data st).2
    < length (accounts cfg).
Proof.
  intros Hi. unfold add_member. destruct (invite tg _ _ _); fields;
    try destruct (randint _ _ _ _); fields; try done.
  apply Nat.mod_upper_bound. lia.
Qed.

Lemma add_members_within_quota session_file current_phone members st n :
  within_quota cfg st ->
  stats st !! current_phone = Some n ->
  (n < max_adds_per_day_per_account cfg)%Z ->
  within_quota cfg
    (outcome (add_members cfg tg session_file current_phone members st)).2.
Proof.
  intros Hq Hn Hlt.
  apply (add_members_rule cfg tg
           (fun _ st => within_quota cfg st
                        /\ exists n, stats st !! current_phone = Some n
                                     /\ (n < max_adds_per_day_per_account cfg)%Z)
           (fun _ st => within_quota cfg st)); [tauto | tauto | | eauto].
  clear. intros user_data rest st [[Hs Hi] (n & Hn & Hlt)] _. cbv zeta.
  pose proof (add_member_frame cfg tg session_file user_data st) as (Hst & Had & _).
  pose proof (add_member_in_range session_file user_data st Hi) as Hi'.
  destruct (add_member cfg tg session_file user_data st) as [ok st1]. fields.
  assert (within_quota cfg st1) as Hq1.
  { split; [|done]. rewrite Hst. done. }
  destruct ok.
  - unfold record_success. fields. rewrite Hst, Hn. fields.
    rewrite lookup_insert_eq.
    assert (within_quota cfg
              (save_progress (set_stats (<[current_phone:=(n + 1)%Z]> (stats st))
                                (set_added (added st1 ++ [user_data]) st1)))) as Hq2.
    { split; [|done]. fields. intros phone m.
      rewrite lookup_insert. case_decide.
      - intros [= <-]. specialize (Hs _ _ Hn). lia.
      - apply Hs. }
    case_bool_decide; [done|]. split; [done|]. fields.
    exists (n + 1)%Z. split; [done | lia].
  - rewrite Hst, Hn. case_bool_decide; [done|]. split; [done|]. eauto.
Qed.

Lemma turn_within_quota members current_phone st :
  within_quota cfg st ->
  within_quota cfg (turn cfg tg members current_phone st).2.2.
Proof.
  intros Hq.
  assert (forall st, within_quota cfg st -> within_quota cfg (tick st)) as Htick.
  { intros ? [? ?]. split; done. }
  assert (forall evs st, within_quota cfg st -> within_quota cfg (emit evs st)) as Hemit.
  { intros ? ? [? ?]. split; done. }
  assert (forall st, within_quota cfg st -> within_quota cfg (switch_account cfg st))
    as Hswitch.
  { intros ? [? ?]. split; [done|]. by apply switch_account_in_range. }
  unfold turn, try_block.
  destruct (connect tg _ _); [|fields; auto].
  destruct (is_user_authorized tg _ _) as [[|]|]; [| |fields; auto].
  - destruct (get_entity tg _ _); [|fields; auto].
    destruct (stats _ !! current_phone) as [n|] eqn:Hn; [|fields; auto].
    case_bool_decide as Hfull.
    + unfold rotate. destruct (accounts cfg !! _); cbn [with_members]; fields; auto 6.
    + match goal with
      | |- context [add_members cfg tg ?s ?p ?m ?st0] =>
          pose proof (add_members_within_quota s p m st0 n) as Hin;
          destruct (add_members cfg tg s p m st0) as [[m' st']|[m' st']]
      end; cbn [with_phone outcome] in *; fields; apply Hemit, Hin; auto; lia.
  - unfold rotate. destruct (accounts cfg !! _); cbn [with_members]; fields; auto 6.
Qed.

Lemma init_within_quota :
  (0 ≤ max_adds_per_day_per_account cfg)%Z ->
  accounts cfg <> [] ->
  within_quota cfg (init cfg).
Proof.
  intros HQ Hne. split.
  - intros phone n. unfold init. fields. intros Hl%elem_of_list_to_map_2.
    apply list_elem_of_fmap in Hl as (p & [= -> ->] & _). lia.
  - unfold init. fields. destruct (accounts cfg); [done | cbn; lia].
Qed.

Lemma run_within_quota fuel file st :
  (0 ≤ max_adds_per_day_per_account cfg)%Z ->
  state_of (run fuel cfg tg file (init cfg)) = Some st ->
  within_quota cfg st.
Proof.
  intros HQ. unfold run. destruct (load_members file) as [|u members]; [done|].
  destruct (accounts cfg !! _) as [phone|] eqn:Hp; [|done].
  assert (within_quota cfg (set_added [] (init cfg))) as Hq.
  { apply init_within_quota; [done|]. intros He. rewrite He in Hp. done. }
  pose proof (main_loop_rule cfg tg (fun _ _ st => within_quota cfg st)) as Hrule.
  cbv beta in Hrule. specialize (Hrule (fun m p st H _ _ => turn_within_quota m p st H)).
  specialize (Hrule fuel (u :: members) phone _ Hq).
  destruct (main_loop _ _ _ _ _ _) as [| |st'|m' p' st']; cbn [state_of]; try done.
  - destruct Hrule as (m0 & p0 & st0 & Hq0 & -> & _). intros [= <-].
    destruct Hq0. split; done.
  - by intros [= <-].
Qed.

End quota.

(** ** Claims about the Dispatcher *)



(** Every delay of the interval can occur: the draw is not narrowed. *)
Lemma every_delay_of_the_interval_can_occur (cfg : Config) (tg : Telegram)
  (session_file : string) (user_data : CandidateRecord) (st : State) (delay : Z) :
  (min_delay cfg ≤ delay ≤ max_delay cfg)%Z ->
  invite tg (clock st) session_file user_data = Invited ->
  exists draw,
    let tg' := {| connect := connect tg; is_user_authorized := is_user_authorized tg;
                  get_entity := get_entity tg; invite := invite tg; random := draw |} in
    (add_member cfg tg' session_file user_data st).1 = true
    /\ journal (add_member cfg tg' session_file user_data st).2
       = journal st ++ [EvInvite session_file user_data Invited; EvSleep delay].
Proof.
  intros Hd Hi. exists (fun _ => (delay - min_delay cfg)%Z). cbv zeta.
  unfold add_member. cbn [invite]. rewrite Hi. unfold randint. cbn [random].
  rewrite bool_decide_eq_true_2 by lia. fields. rewrite <- app_assoc.
  rewrite Z.mod_small by lia.
  replace (min_delay cfg + (delay - min_delay cfg))%Z with delay by lia. done.
Qed.

Lemma peer_floods_app evs1 evs2 :
  peer_floods (evs1 ++ evs2) = peer_floods evs1 + peer_floods evs2.
Proof. unfold peer_floods. by rewrite filter_app, length_app. Qed.

Lemma same_client_add_member cfg tg session_file current_phone st0 user_data st :
  same_client cfg session_file current_phone st0 st ->
  same_client cfg session_file current_phone st0
    (add_member cfg tg session_file user_data st).2.
Proof.
  intros ((evs & Hj & Hs & Hi) & Hd & Hn).
  assert (forall tail b,
             Forall (on_session session_file) tail ->
             Forall (on_session session_file)
               (evs ++ EvInvite session_file user_data b :: tail)) as Hon.
  { intros tail b Ht. apply Forall_app. split; [done|]. by constructor. }
  unfold add_member.
  destruct (invite tg _ _ _) eqn:Hr; fields;
    try (destruct (randint _ _ _ _) eqn:Hrand; fields);
    (split; [|by fields]); fields;
    (eexists; split; [rewrite Hj, <- ?app_assoc; cbn [app]; reflexivity|]).
  all: split; [apply Hon; repeat (constructor; try done)|].
  all: rewrite peer_floods_app; unfold peer_floods at 2.
  all: cbn; rewrite ?Nat.add_0_r, ?Nat.add_1_r, ?Nat.iter_succ, ?Nat.add_1_r, ?Hi; done.
Qed.

Lemma same_client_record_success cfg session_file current_phone st0 user_data st :
  same_client cfg session_file current_phone st0 st ->
  same_client cfg session_file current_phone st0
    (outcome (record_success current_phone user_data st)).
Proof.
  intros (Hev & Hd & Hn). unfold record_success. fields.
  destruct (stats st !! current_phone) as [n|] eqn:Hcur; cbn [outcome].
  - split; [by fields|]. fields. split.
    + by rewrite delete_insert_eq.
    + rewrite lookup_insert_eq.
      destruct (stats st0 !! current_phone) as [n0|]; [|done].
      cbn in Hn |- *. injection Hn as ->. rewrite length_app. cbn. f_equal. lia.
  - split; [by fields|]. fields. split; [done|]. rewrite Hcur.
    by destruct (stats st0 !! current_phone).
Qed.

Lemma same_client_refl cfg session_file current_phone st :
  same_client cfg session_file current_phone st st.
Proof.
  split; [|split].
  - exists []. rewrite app_nil_r. split; [done|]. split; [constructor | done].
  - done.
  - destruct (stats st !! current_phone); [|done]. cbn. f_equal. lia.
Qed.

(** ** Candidates are popped once and never put back *)

Lemma attempted_app j1 j2 : attempted (j1 ++ j2) = attempted j1 ++ attempted j2.
Proof. apply omap_app. Qed.

Lemma attempted_invite session_file user_data r tail :
  attempted (EvInvite session_file user_data r :: tail) = user_data :: attempted tail.
Proof. reflexivity. Qed.

Lemma invited_app j1 j2 : invited (j1 ++ j2) = invited j1 ++ invited j2.
Proof. apply omap_app. Qed.

Lemma invited_attempted j a : a ∈ invited j -> a ∈ attempted j.
Proof.
  unfold invited, attempted. intros (e & He & Ha)%list_elem_of_omap.
  apply list_elem_of_omap. exists e. split; [done|].
  destruct e as [| |s u r|]; try done. by destruct r.
Qed.

Lemma waits_respected_app j evs :
  waits_respected j -> waits_respected evs -> waits_respected (j ++ evs).
Proof.
  intros Hj Hevs. induction j as [|e j IH]; [done|].
  destruct e as [| |s u r|]; cbn [waits_respected app] in *; auto.
  destruct r; auto. destruct Hj as [Hnext Hj]. split; [|auto].
  destruct j as [|[] j]; done.
Qed.

Lemma waits_respected_at pre session_file user_data seconds post :
  waits_respected (pre ++ EvInvite session_file user_data (FloodWaitError seconds) :: post) ->
  exists rest, post = EvSleep seconds :: rest.
Proof.
  induction pre as [|e pre IH]; cbn [waits_respected app].
  - intros [Hnext _]. destruct post as [|[] post]; try done. subst. eauto.
  - destruct e as [| |s u r|]; auto. destruct r; auto. intros [_ ?]. auto.
Qed.

Section popped.
Variables (cfg : Config) (tg : Telegram).

Lemma popped_once_quiet orig members evs st :
  attempted evs = [] -> waits_respected evs ->
  popped_once orig members st -> popped_once orig members (emit evs st).
Proof.
  intros Hq Hw (Ha & Hwj & Hin). split; [|split]; fields.
  - by rewrite attempted_app, Hq, app_nil_r.
  - by apply waits_respected_app.
  - intros a Ha'. rewrite invited_app. apply elem_of_app. left. auto.
Qed.

Lemma popped_once_step orig session_file current_phone user_data rest st :
  popped_once orig (user_data :: rest) st ->
  let r := add_member cfg tg session_file user_data st in
  popped_once orig rest
    (outcome (if r.1 then record_success current_phone user_data r.2 else Normal r.2)).
Proof.
  intros (Ha & Hw & Hin). cbv zeta.
  assert (forall b tail,
             attempted tail = [] ->
             attempted (journal st ++ EvInvite session_file user_data b :: tail) ++ rest
             = orig) as Hatt.
  { intros b tail Ht. rewrite attempted_app, attempted_invite, Ht, <- app_assoc. done. }
  assert (forall evs a, a ∈ added st -> a ∈ invited (journal st ++ evs)) as Hold.
  { intros evs a Ha'. rewrite invited_app. apply elem_of_app. left. auto. }
  unfold add_member.
  destruct (invite tg _ _ _) eqn:Hr; fields;
    try (destruct (randint _ _ _ _) eqn:Hrand; fields);
    unfold record_success; fields;
    try (destruct (stats st !! current_phone) as [n|] eqn:Hcur);
    cbn [outcome]; (split; [|split]); fields; rewrite <- ?app_assoc; cbn [app].
  all: try (by apply Hatt).
  all: try (apply waits_respected_app; [done | by cbn]).
  all: try (by apply Hold).
  all: intros a [Ha'| ->%list_elem_of_singleton]%elem_of_app; [by apply Hold|].
  all: rewrite invited_app; apply elem_of_app; right; cbn; left.
Qed.

Lemma add_members_popped_once orig session_file current_phone members st :
  popped_once orig members st ->
  let out := outcome (add_members cfg tg session_file current_phone members st) in
  popped_once orig out.1 out.2.
Proof.
  intros Hp.
  apply (add_members_rule cfg tg (fun m st => popped_once orig m st)
           (fun m st => popped_once orig m st)); [tauto | tauto | | done].
  clear. intros user_data rest st Hp _.
  pose proof (popped_once_step orig session_file current_phone user_data rest st Hp) as Hs.
  cbv zeta in Hs |- *.
  destruct (if (add_member cfg tg session_file user_data st).1 then _ else _) as [st2|st2];
    cbn [outcome] in Hs; [|done].
  destruct (stats st2 !! current_phone); [|done]. by case_bool_decide.
Qed.

Lemma turn_popped_once orig members current_phone st :
  popped_once orig members st ->
  let next := turn cfg tg members current_phone st in
  popped_once orig next.1 next.2.2.
Proof.
  intros Hp. cbv zeta.
  assert (forall m evs st,
             attempted evs = [] -> waits_respected evs ->
             popped_once orig m st -> popped_once orig m (emit evs st)) as Hemit.
  { intros. by apply popped_once_quiet. }
  unfold turn, try_block.
  destruct (connect tg _ _); [|fields; frame_steps Hemit; exact Hp].
  destruct (is_user_authorized tg _ _) as [[|]|];
    [| |fields; frame_steps Hemit; exact Hp].
  - destruct (get_entity tg _ _); [|fields; frame_steps Hemit; exact Hp].
    destruct (stats _ !! current_phone) as [n|] eqn:Hn;
      [|fields; frame_steps Hemit; exact Hp].
    case_bool_decide as Hfull.
    + unfold rotate. destruct (accounts cfg !! _); cbn [with_members]; fields;
        frame_steps Hemit; exact Hp.
    + match goal with
      | |- context [add_members cfg tg ?s ?p ?m ?st0] =>
          pose proof (add_members_popped_once orig s p m st0) as Hin;
          destruct (add_members cfg tg s p m st0) as [[m' st']|[m' st']]
      end; cbn [with_phone outcome] in *; fields;
        frame_steps Hemit; apply Hin; frame_steps Hemit; exact Hp.
  - unfold rotate. destruct (accounts cfg !! _); cbn [with_members]; fields;
      frame_steps Hemit; exact Hp.
Qed.

Lemma run_popped_once fuel members st :
  state_of (run fuel cfg tg (Some members) (init cfg)) = Some st ->
  exists left, popped_once members left st.
Proof.
  unfold run. cbn [load_members]. destruct members as [|u members]; [done|].
  destruct (accounts cfg !! _) as [phone|]; [|done].
  pose proof (main_loop_rule cfg tg (fun m _ st => popped_once (u :: members) m st)) as Hrule.
  cbv beta in Hrule.
  specialize (Hrule (fun m p st H _ _ => turn_popped_once (u :: members) m p st H)).
  specialize (Hrule fuel (u :: members) phone (set_added [] (init cfg))).
  destruct (main_loop _ _ _ _ _ _) as [| |st'|m' p' st']; cbn [state_of]; try done.
  - destruct Hrule as (m0 & p0 & st0 & Hq0 & -> & _).
    { split; [done|]. split; [done|]. intros a Ha. by apply elem_of_nil in Ha. }
    intros [= <-]. exists m0. destruct Hq0 as (? & ? & ?). split; [|split]; done.
  - intros [= <-]. exists m'. apply Hrule.
    split; [done|]. split; [done|]. intros a Ha. by apply elem_of_nil in Ha.
Qed.

End popped.

(** C5: in a run over a Candidate Set (ids pairwise distinct), when an
    invitation is answered by a rate limit of [seconds], the next event is a
    sleep of [seconds], so that it precedes any further attempt;
    [add_member] reports a failure; no other invitation, before or after,
    concerns a candidate with that id; and no record with that id is in the
    added list.  This holds of every state the run reaches, the final one
    included. *)
Theorem rate_limited_candidate_is_dropped (cfg : Config) (tg : Telegram)
  (members : list CandidateRecord) (fuel : nat) (st : State)
  (session_file : string) (user_data : CandidateRecord) (seconds : Z)
  (pre post : list Event) :
  NoDup (c_id <$> members) ->
  state_of (run fuel cfg tg (Some members) (init cfg)) = Some st ->
  journal st = pre ++ EvInvite session_file user_data (FloodWaitError seconds) :: post ->
  (exists rest, post = EvSleep seconds :: rest)
  /\ (c_id user_data ∉ (c_id <$> attempted pre))
  /\ (c_id user_data ∉ (c_id <$> attempted post))
  /\ (forall a, a ∈ added st -> c_id a <> c_id user_data)
  /\ (forall st0,
        match invite tg (clock st0) session_file user_data with
        | FloodWaitError w =>
            add_member cfg tg session_file user_data st0 =
              (false, emit [EvInvite session_file user_data (FloodWaitError w); EvSleep w]
                        (tick st0))
        | _ => True
        end).
Proof.
  intros Hnd Hrun Hj.
  destruct (run_popped_once cfg tg fuel members st Hrun) as (left & Hatt & Hw & Hin).
  rewrite Hj in Hatt, Hw, Hin.
  rewrite attempted_app, attempted_invite in Hatt.
  assert (NoDup ((c_id <$> attempted pre)
                 ++ c_id user_data :: (c_id <$> attempted post))) as Hnd'.
  { rewrite <- Hatt, fmap_app in Hnd. apply NoDup_app in Hnd as [Hnd _].
    by rewrite fmap_app, fmap_cons in Hnd. }
  apply NoDup_app in Hnd' as (_ & Hpre & [Hpost _]%NoDup_cons).
  split; [by eapply waits_respected_at|].
  split; [intros Hx; apply (Hpre _ Hx); left|]. split; [done|]. split.
  - intros a Ha Hid. apply Hin in Ha. rewrite invited_app in Ha.
    apply elem_of_app in Ha as [Ha|Ha].
    + apply (Hpre (c_id a)); [|rewrite Hid; left].
      apply list_elem_of_fmap. exists a. split; [done|]. by apply invited_attempted.
    + apply Hpost. rewrite <- Hid.
      apply list_elem_of_fmap. exists a. split; [done|]. by apply invited_attempted.
  - intros st0. unfold add_member. destruct (invite tg _ _ _); try done.
    fields. unfold emit, tick. fields. by rewrite <- app_assoc.
Qed.

Lemma rate_limited_candidate_is_dropped_witness :
  (exists rest,
      [EvSleep 30; EvInvite "sessions/+100" (candidate 3) Invited; EvSleep 5;
       EvDisconnect "sessions/+100"] = EvSleep 30 :: rest)
  /\ (c_id (candidate 2) ∉
       (c_id <$> attempted [EvConnect "sessions/+100";
                            EvInvite "sessions/+100" (candidate 1) Invited; EvSleep 5]))
  /\ (c_id (candidate 2) ∉
       (c_id <$> attempted [EvSleep 30; EvInvite "sessions/+100" (candidate 3) Invited;
                            EvSleep 5; EvDisconnect "sessions/+100"]))
  /\ (forall a, a ∈ added rate_limited_state -> c_id a <> c_id (candidate 2))
  /\ (forall st0,
        match invite rate_limiting (clock st0) "sessions/+100" (candidate 2) with
        | FloodWaitError w =>
            add_member (config_of ["+100"] 2 5 5 5) rate_limiting "sessions/+100"
              (candidate 2) st0 =
              (false, emit [EvInvite "sessions/+100" (candidate 2) (FloodWaitError w);
                            EvSleep w] (tick st0))
        | _ => True
        end).
Proof.
  apply (rate_limited_candidate_is_dropped (config_of ["+100"] 2 5 5 5) rate_limiting
           [candidate 1; candidate 2; candidate 3] 3 rate_limited_state
           "sessions/+100" (candidate 2) 30
           [EvConnect "sessions/+100"; EvInvite "sessions/+100" (candidate 1) Invited;
            EvSleep 5]).
  - apply (bool_decide_unpack _). vm_compute. exact I.
  - vm_compute. reflexivity.
  - vm_compute. reflexivity.
Defined.

(** What holds when the main loop is left: the progress file holds the
    added list and the counters, and either the target is reached or every
    loaded candidate has been attempted. *)
Lemma completed_run_has_saved_progress (cfg : Config) (tg : Telegram)
  (members : list CandidateRecord) (fuel : nat) (st : State) :
  run fuel cfg tg (Some members) (init cfg) = Completed st ->
  progress_file st = Some {| added_members := added st; daily_stats := stats st |}
  /\ ((members_to_add cfg ≤ Z.of_nat (length (added st)))%Z
      \/ attempted (journal st) = members).
Proof.
  unfold run. cbn [load_members]. destruct members as [|u members]; [done|].
  destruct (accounts cfg !! _) as [phone|]; [|done].
  pose proof (main_loop_rule cfg tg (fun m _ st => popped_once (u :: members) m st)) as Hrule.
  cbv beta in Hrule.
  specialize (Hrule (fun m p st H _ _ => turn_popped_once cfg tg (u :: members) m p st H)).
  specialize (Hrule fuel (u :: members) phone (set_added [] (init cfg))).
  intros Hrun. rewrite Hrun in Hrule.
  destruct Hrule as (m0 & p0 & st0 & (Hatt & _) & -> & Hexit).
  { split; [done|]. split; [done|]. intros a Ha. by apply elem_of_nil in Ha. }
  split; [done|]. fields. destruct Hexit as [?| ->]; [by left|].
  right. by rewrite app_nil_r in Hatt.
Qed.

(** ** When every counter has reached the quota *)

Section livelock.
Variables (cfg : Config) (tg : Telegram).

(** A turn taken with every quota used up attempts nothing. *)
Lemma turn_exhausted members current_phone st :
  exhausted cfg st ->
  exists phone' st',
    turn cfg tg members current_phone st = (members, (phone', st'))
    /\ added st' = added st /\ stats st' = stats st.
Proof.
  intros Hex. unfold turn, try_block.
  destruct (connect tg _ _); [|by eexists _, _].
  destruct (is_user_authorized tg _ _) as [[|]|]; [| |by eexists _, _].
  - destruct (get_entity tg _ _); [|by eexists _, _].
    destruct (stats _ !! current_phone) as [n|] eqn:Hn; [|by eexists _, _].
    fields. rewrite bool_decide_eq_true_2 by (by apply (Hex current_phone n)).
    unfold rotate. destruct (accounts cfg !! _); by eexists _, _.
  - unfold rotate. destruct (accounts cfg !! _); by eexists _, _.
Qed.

Lemma quota_livelock fuel members current_phone st :
  exhausted cfg st ->
  (Z.of_nat (length (added st)) < members_to_add cfg)%Z ->
  members <> [] ->
  exists phone' st',
    main_loop fuel cfg tg members current_phone st = Running members phone' st'
    /\ added st' = added st /\ stats st' = stats st.
Proof.
  intros Hex Hlt Hne. revert current_phone st Hex Hlt.
  induction fuel as [|fuel IH]; intros current_phone st Hex Hlt; cbn [main_loop];
    rewrite bool_decide_eq_true_2 by done;
    rewrite (bool_decide_eq_false_2 (members = [])) by done; cbn [negb andb].
  - by eexists _, _.
  - destruct (turn_exhausted members current_phone st Hex) as (p' & st' & -> & Ha & Hs).
    destruct (IH p' st') as (p'' & st'' & -> & Ha' & Hs').
    + unfold exhausted. by rewrite Hs.
    + by rewrite Ha.
    + eexists _, _. split; [done|]. split; congruence.
Qed.

(** Once a run has reached such a state with candidates left and the
    target not reached, it is still running after any number of turns. *)
Lemma run_never_completes k file members current_phone st :
  run k cfg tg file (init cfg) = Running members current_phone st ->
  exhausted cfg st ->
  (Z.of_nat (length (added st)) < members_to_add cfg)%Z ->
  members <> [] ->
  forall fuel, exists members' phone' st',
    run fuel cfg tg file (init cfg) = Running members' phone' st'.
Proof.
  unfold run. destruct (load_members file) as [|u loaded]; [done|].
  destruct (accounts cfg !! _) as [phone|]; [|done].
  intros Hk Hex Hlt Hne fuel. destruct (decide (fuel ≤ k)) as [Hle|Hgt].
  - replace k with (fuel + (k - fuel)) in Hk by lia. rewrite main_loop_add in Hk.
    destruct (main_loop fuel _ _ _ _ _) as [| |st'|m' p' st']; try done.
    by eexists _, _, _.
  - replace fuel with (k + (fuel - k)) by lia. rewrite main_loop_add, Hk.
    destruct (quota_livelock (fuel - k) members current_phone st Hex Hlt Hne)
      as (p' & st' & -> & _).
    by eexists _, _, _.
Qed.

End livelock.

(** C2 at the failing input: one account with a quota of 1, a target of 2,
    two candidates, a service that accepts everything.  After the first
    addition the account is at its quota; from then on every turn of the
    main loop rotates back to the same account and attempts nothing, so the
    run is still in its main loop after any number of turns, with a
    candidate left and the target not reached. *)
Theorem dispatcher_spins_when_quota_is_used_up :
  forall fuel, exists members current_phone st,
    run fuel (config_of ["+100"] 2 1 5 5) willing
      (Some [candidate 1; candidate 2]) (init (config_of ["+100"] 2 1 5 5))
    = Running members current_phone st.
Proof.
  pose (r := run 1 (config_of ["+100"] 2 1 5 5) willing
               (Some [candidate 1; candidate 2]) (init (config_of ["+100"] 2 1 5 5))).
  assert (exists m p st, r = Running m p st
            /\ bool_decide (exhausted (config_of ["+100"] 2 1 5 5) st) = true
            /\ bool_decide (Z.of_nat (length (added st)) < 2)%Z = true
            /\ bool_decide (m <> []) = true) as (m & p & st & Hr & Hex & Hlt & Hne).
  { vm_compute. eexists _, _, _. repeat split. }
  apply bool_decide_eq_true in Hex, Hlt, Hne.
  by apply (run_never_completes _ _ 1 _ m p st Hr).
Qed.


(** ** A run in which every addition succeeds *)

Section all_succeed.
Variables (cfg : Config) (tg : Telegram).
Hypothesis Hready : sessions_ready tg.
Hypothesis Hadd : every_add_succeeds cfg tg.
Hypothesis Hphones : NoDup (accounts cfg).

Local Abbreviation N := (members_to_add cfg).
Local Abbreviation Q := (max_adds_per_day_per_account cfg).
Local Abbreviation R := (length (accounts cfg)).

(** The inner loop adds the next [k] candidates and stops at the end of the
    list, at the target or at the quota. *)
Lemma add_members_all_succeed session_file current_phone members st n :
  stats st !! current_phone = Some n ->
  (n < Q)%Z ->
  exists k st',
    add_members cfg tg session_file current_phone members st
      = Normal (drop k members, st')
    /\ k ≤ length members
    /\ added st' = added st ++ take k members
    /\ stats st' = <[current_phone := (n + Z.of_nat k)%Z]> (stats st)
    /\ current_account_index st' = current_account_index st
    /\ (n + Z.of_nat k ≤ Q)%Z
    /\ (k = 0 \/ (Z.of_nat (length (added st)) + Z.of_nat k ≤ N)%Z)
    /\ (k = length members
        \/ (N ≤ Z.of_nat (length (added st)) + Z.of_nat k)%Z
        \/ (n + Z.of_nat k)%Z = Q).
Proof.
  revert st n. induction members as [|user_data rest IH]; intros st n Hn Hlt.
  - exists 0, st. cbn. rewrite Z.add_0_r, app_nil_r, insert_id by done.
    repeat split; auto. lia.
  - cbn [add_members]. case_bool_decide as Htarget.
    + pose proof (Hadd session_file user_data st) as Hok.
      pose proof (add_member_frame cfg tg session_file user_data st) as (Hs & Ha & _).
      destruct (add_member cfg tg session_file user_data st) as [ok st1] eqn:Hcall.
      fields. subst ok.
      apply add_member_true in Hcall as (_ & Hidx & _).
      unfold record_success. fields. rewrite Hs, Hn. fields.
      rewrite lookup_insert_eq. case_bool_decide as Hfull.
      * eexists 1, _. split; [reflexivity|]. fields. rewrite Ha.
        repeat split; auto; cbn; lia.
      * set (st2 := save_progress _).
        destruct (IH st2 (n + 1)%Z) as (k & st' & -> & Hk & Hadded & Hstats & Hi & Hq & Ht & He).
        { subst st2. fields. by rewrite lookup_insert_eq. }
        { lia. }
        subst st2. fields. rewrite Ha in *. rewrite length_app in *. cbn [length] in *.
        exists (S k), st'. split; [reflexivity|].
        split; [lia|]. split; [by rewrite Hadded, <- app_assoc|].
        split; [rewrite Hstats, insert_insert_eq; f_equal; lia|].
        split; [congruence|]. split; [lia|]. split; [right; lia|].
        destruct He as [->|[?|?]]; [by left | right; left; lia | right; right; lia].
    + exists 0, st. cbn. rewrite Z.add_0_r, app_nil_r, insert_id by done.
      repeat split; auto; lia.
Qed.

Lemma main_loop_all_succeed orig fuel :
  (N ≤ Z.of_nat (length orig))%Z ->
  (N ≤ Z.of_nat R * Q)%Z ->
  forall i n a current_phone st,
    filling cfg orig i n a current_phone st ->
    2 * (R - i) ≤ fuel + (if decide (n = Q) then 1 else 0)
    \/ (N ≤ Z.of_nat a)%Z \/ drop a orig = [] ->
    exists st',
      main_loop fuel cfg tg (drop a orig) current_phone st = Completed (save_progress st')
      /\ added st' = take (Z.to_nat N) orig.
Proof.
  intros Hsize Hcap. destruct Hready as (Hconn & Hauth & Hent).
  induction fuel as [|fuel IH];
    intros i n a current_phone st
      (Hidx & Hphone & Hadded & Hlen & Hsum & Hn & Hle & Hstats) Hfuel.
  all: assert (i < R) as Hi by (by eapply lookup_lt_Some).
  all: cbn [main_loop]; rewrite Hadded, length_take_le by done.
  all: destruct (bool_decide (Z.of_nat a < N)%Z && negb (bool_decide (drop a orig = [])))
         eqn:Hcond;
       [apply andb_true_iff in Hcond as [Hlt%bool_decide_eq_true
                                           Hne%negb_true_iff%bool_decide_eq_false]
       |apply andb_false_iff in Hcond as [Hge%bool_decide_eq_false
                                         |Hnil%negb_false_iff%bool_decide_eq_true]].
  all: try (exists st; split; [done|]; rewrite Hadded; f_equal; lia).
  all: try (exists st; split; [done|]; rewrite Hadded; f_equal;
            apply drop_nil_inv in Hnil ||
            (assert (length (drop a orig) = 0) as Hd by (by rewrite Hnil);
             rewrite length_drop in Hd); lia).
  - (* no fuel although a turn is needed *)
    exfalso. destruct Hfuel as [Hf|[?|?]]; [|lia|done].
    destruct (decide (n = Q)); lia.
  - (* one turn *)
    destruct Hfuel as [Hf|[?|?]]; [|lia|done].
    pose proof (Hstats i current_phone Hphone) as Hcur.
    rewrite decide_False, decide_True in Hcur by lia.
    unfold turn, try_block. rewrite Hconn. fields. rewrite Hauth, Hent, Hcur.
    case_bool_decide as Hfull.
    + (* the account is full: rotate to the next one *)
      assert (n = Q) as -> by lia. rewrite decide_True in Hf by done.
      assert (S i < R) as Hnext by nia.
      unfold rotate. fields. rewrite Hidx, Nat.add_1_r, (Nat.mod_small (S i)) by done.
      destruct (lookup_lt_is_Some_2 (accounts cfg) (S i) Hnext) as [phone' Hphone'].
      rewrite Hphone'. cbn [with_members].
      apply (IH (S i) 0%Z a phone').
      * unfold filling. fields.
        rewrite Hidx, Nat.add_1_r, (Nat.mod_small (S i)) by done.
        split; [done|]. split; [done|]. split; [done|]. split; [done|].
        split; [lia|]. split; [lia|]. split; [done|].
        intros j p Hj. rewrite (Hstats j p Hj). fields.
        repeat case_decide; try done; lia.
      * left. destruct (decide (0%Z = Q)); lia.
    + (* the account has room: the inner loop runs *)
      match goal with
      | |- context [add_members cfg tg ?s ?p ?m ?st0] =>
          destruct (add_members_all_succeed s p m st0 n)
            as (k & st' & -> & Hk & Hadded' & Hstats' & Hidx' & Hq & Ht & He);
          [done | lia |]
      end.
      cbn [with_phone]. fields. rewrite length_drop in Hk, He.
      rewrite Hadded, length_take_le in Ht, He by done.
      rewrite drop_drop.
      apply (IH i (n + Z.of_nat k)%Z (a + k) current_phone).
      * unfold filling. fields.
        split; [congruence|]. split; [done|].
        split. { rewrite Hadded', Hadded. by rewrite take_take_drop. }
        split; [lia|]. split; [lia|]. split; [lia|]. split; [lia|].
        intros j p Hj. fields. rewrite Hstats'.
        destruct (decide (j = i)) as [->|Hji].
        -- assert (p = current_phone) as -> by congruence.
           rewrite lookup_insert_eq. by rewrite decide_False by lia.
        -- rewrite lookup_insert_ne.
           ++ rewrite (Hstats j p Hj). by repeat case_decide.
           ++ intros <-. apply Hji. by eapply NoDup_lookup.
      * destruct He as [He|[He|He]].
        -- right. right. apply drop_ge. lia.
        -- right. left. lia.
        -- left. rewrite decide_True by done. destruct (decide (n = Q)); lia.
Qed.

End all_succeed.

Lemma init_stats_zero (cfg : Config) (phone : string) :
  phone ∈ accounts cfg -> stats (init cfg) !! phone = Some 0%Z.
Proof.
  intros Hin. unfold init. fields.
  destruct (list_to_map _ !! phone) as [n|] eqn:Hl.
  - apply elem_of_list_to_map_2 in Hl.
    apply list_elem_of_fmap in Hl as (p & [= -> ->] & _). done.
  - apply not_elem_of_list_to_map in Hl. exfalso. apply Hl.
    rewrite <- list_fmap_compose. apply list_elem_of_fmap. by exists phone.
Qed.



(** A flood-of-requests answer in the middle of the inner loop: with two
    accounts and a service that answers the second candidate with
    [PeerFloodError], the three invitations all go through the client of the
    first account, whose counter ends at 2 while that of the second account
    stays at 0, although the rotation index has moved to the second
    account. *)
Example flood_in_the_middle :
  let cfg := config_of ["+100"; "+200"] 3 5 5 5 in
  let tg := service (fun _ user_data =>
                       if bool_decide (c_id user_data = 2%Z)
                       then PeerFloodError else Invited) in
  let st := (outcome (add_members cfg tg "sessions/+100" "+100"
                        [candidate 1; candidate 2; candidate 3] (init cfg))).2 in
  journal st =
    [ EvInvite "sessions/+100" (candidate 1) Invited; EvSleep 5;
      EvInvite "sessions/+100" (candidate 2) PeerFloodError; EvSleep 60;
      EvInvite "sessions/+100" (candidate 3) Invited; EvSleep 5 ]
  /\ current_account_index st = 1
  /\ stats st !! "+100"%string = Some 2%Z
  /\ stats st !! "+200"%string = Some 0%Z
  /\ added st = [candidate 1; candidate 3].
Proof. vm_compute. repeat split. Qed.

(** * Further properties of the Collector *)

(** Whatever assignment keeps, every pass keeps. *)
Section pass_rule.
Variable P : list (Z * CandidateRecord) -> Prop.
Hypothesis Hput : forall d c, P d -> P (put d c).

Lemma foldl_put_rule d recs : P d -> P (foldl put d recs).
Proof.
  revert d. induction recs as [|c recs IH]; intros d Hd; [done|].
  cbn [foldl]. apply IH. by apply Hput.
Qed.

Lemma get_members_from_recent_rule src self :
  P (GetMembers.all_members self) ->
  P (GetMembers.all_members (GetMembers.get_members_from_recent src self)).
Proof.
  unfold GetMembers.get_members_from_recent. intros Hd.
  destruct (GetMembers.participants src _ _); try done. cbn.
  rewrite keep_participant_put. by apply foldl_put_rule.
Qed.

Lemma get_members_from_messages_rule src limit self :
  P (GetMembers.all_members self) ->
  P (GetMembers.all_members (GetMembers.get_members_from_messages src limit self)).
Proof.
  unfold GetMembers.get_members_from_messages. intros Hd. cbn.
  rewrite keep_sender_put. by apply foldl_put_rule.
Qed.

Lemma reactions_of_message_rule src messages acc :
  P acc.1 -> P (foldl (GetMembers.reactions_of_message src) acc messages).1.
Proof.
  revert acc. induction messages as [|m ms IH]; intros acc Hd; [done|].
  cbn [foldl]. apply IH. unfold GetMembers.reactions_of_message.
  destruct (GetMembers.get_message_reactions src _ _); [|done]. cbn.
  rewrite keep_reactor_put. by apply foldl_put_rule.
Qed.

Lemma get_members_from_reactions_rule src limit self :
  P (GetMembers.all_members self) ->
  P (GetMembers.all_members (GetMembers.get_members_from_reactions src limit self)).
Proof.
  unfold GetMembers.get_members_from_reactions. intros Hd.
  destruct (GetMembers.get_messages src limit); try done. cbn.
  by apply reactions_of_message_rule.
Qed.

Lemma get_members_by_search_rule src self :
  P (GetMembers.all_members self) ->
  P (GetMembers.all_members (GetMembers.get_members_by_search src self)).
Proof.
  unfold GetMembers.get_members_by_search. generalize GetMembers.search_patterns.
  intros ps. revert self. induction ps as [|p ps IH]; intros self Hd; [done|].
  cbn [foldl]. apply IH. unfold GetMembers.search_pattern.
  destruct (GetMembers.participants src _ _); try done. cbn.
  rewrite keep_participant_put. by apply foldl_put_rule.
Qed.

Lemma scrape_rule src self :
  P (GetMembers.all_members self) -> P (GetMembers.all_members (scrape src self)).
Proof.
  intros Hd. unfold scrape.
  by apply get_members_by_search_rule, get_members_from_reactions_rule,
    get_members_from_messages_rule, get_members_from_recent_rule.
Qed.

End pass_rule.

(** [run] makes the four passes when the session is usable and nothing
    otherwise. *)
Lemma run_scraper src self :
  GetMembers.scraper (GetMembers.run src self) =
    if source_ready src then scrape src self else self.
Proof.
  unfold GetMembers.run, source_ready, scrape.
  destruct (GetMembers.connect src); try done.
  destruct (GetMembers.is_user_authorized src) as [[|]| |]; try done.
  destruct (GetMembers.get_entity src); try done.
  cbv zeta. by destruct (dict_values _).
Qed.

Lemma run_members_file src self :
  GetMembers.members_file (GetMembers.run src self) =
    if source_ready src
    then match dict_values (GetMembers.all_members (scrape src self)) with
         | [] => None
         | members_list => Some members_list
         end
    else None.
Proof.
  unfold GetMembers.run, source_ready, scrape.
  destruct (GetMembers.connect src); try done.
  destruct (GetMembers.is_user_authorized src) as [[|]| |]; try done.
  destruct (GetMembers.get_entity src); try done.
  cbv zeta. by destruct (dict_values _).
Qed.

Lemma dict_set_keyed d c : keyed d -> keyed (put d c).
Proof.
  intros [Hnd Hid]. split; [by apply dict_keys_NoDup_set|].
  unfold put. induction d as [|[k v] d IH]; cbn [dict_set].
  - by repeat constructor.
  - apply Forall_cons in Hid as [Hk Hd]. apply NoDup_cons in Hnd as [_ Hnd].
    case_bool_decide; constructor; auto.
Qed.

Lemma keyed_ids d : keyed d -> c_id <$> dict_values d = dict_keys d.
Proof.
  intros [_ Hid]. unfold dict_values, dict_keys.
  induction Hid as [|[k v] d Hk _ IH]; [done|]. csimpl in *. by rewrite Hk, IH.
Qed.

(** X1: the list the Collector writes to the members file carries pairwise
    distinct ids, is never empty, and is the content of the dictionary in
    insertion order; in the dictionary every record is stored under its own
    id. *)
Theorem members_file_has_distinct_ids (src : GetMembers.Source) :
  let out := GetMembers.run src GetMembers.init in
  keyed (GetMembers.all_members (GetMembers.scraper out))
  /\ match GetMembers.members_file out with
     | Some members_list =>
         NoDup (c_id <$> members_list)
         /\ members_list <> []
         /\ members_list = dict_values (GetMembers.all_members (GetMembers.scraper out))
     | None => True
     end.
Proof.
  cbv zeta. rewrite run_scraper, run_members_file.
  assert (keyed (GetMembers.all_members GetMembers.init)) as Hinit.
  { split; constructor. }
  destruct (source_ready src); [|done].
  pose proof (scrape_rule keyed dict_set_keyed src GetMembers.init Hinit) as Hk.
  split; [done|]. pose proof (keyed_ids _ Hk) as Hids.
  destruct (dict_values _) as [|c l] eqn:Hv; [done|].
  split; [|done]. rewrite Hids. apply Hk.
Qed.

Lemma dict_set_Forall {V : Type} (Q : Z * V -> Prop) (d : list (Z * V)) k v :
  Forall Q d -> Q (k, v) -> Forall Q (dict_set k v d).
Proof.
  intros Hd Hv. induction Hd as [|[k0 v0] d Hq Hd IH]; cbn [dict_set].
  - by constructor.
  - case_bool_decide; subst; constructor; auto.
Qed.

Lemma put_provenance d recs :
  Forall (fun kc => kc ∈ d \/ (kc.2 ∈ recs /\ kc.1 = c_id kc.2)) (foldl put d recs).
Proof.
  induction recs as [|c recs IH] using rev_ind.
  - cbn. apply Forall_forall. intros kc Hkc. by left.
  - rewrite foldl_app. cbn [foldl]. unfold put at 1. apply dict_set_Forall.
    + eapply Forall_impl; [exact IH|]. intros kc [?|[? ?]]; [by left|].
      right. split; [|done]. apply elem_of_app. by left.
    + right. split; [|done]. apply elem_of_app. right. by left.
Qed.

(** X2: an entry of the dictionary after the loop over participants (of
    the recent list or of a search) was there before or comes from a user of
    the answer that is neither a bot nor deleted; likewise for the senders
    of the messages scanned.  After the loop over reactions it was there
    before or comes from a reactor that is no bot (deleted accounts are not
    screened there). *)
Theorem stored_entries_come_from_screened_users (d : list (Z * CandidateRecord)) :
  (forall users,
      Forall (fun kc => kc ∈ d \/ live_participant users kc)
        (foldl GetMembers.keep_participant d users))
  /\ (forall messages,
      Forall (fun kc => kc ∈ d \/ live_sender messages kc)
        (foldl GetMembers.keep_sender d messages))
  /\ (forall peers,
      Forall (fun kc => kc ∈ d \/ human_reactor peers kc)
        (foldl GetMembers.keep_reactor d peers)).
Proof.
  split; [|split].
  - intros users. rewrite keep_participant_put.
    eapply Forall_impl; [apply put_provenance|].
    intros [k c] [?|[Hc Hk]]; [by left|]. right. cbn in Hc, Hk. subst k.
    apply list_elem_of_omap in Hc as (e & He & Hf). destruct e as [u|]; [|done].
    unfold passes_filter in Hf.
    destruct (GetMembers.bot u) eqn:Hb; [done|].
    destruct (GetMembers.deleted u) eqn:Hdel; [done|].
    cbn in Hf. injection Hf as <-. by exists u.
  - intros messages. rewrite keep_sender_put.
    eapply Forall_impl; [apply put_provenance|].
    intros [k c] [?|[Hc Hk]]; [by left|]. right. cbn in Hc, Hk. subst k.
    apply list_elem_of_omap in Hc as (m & Hm & Hf).
    destruct (GetMembers.sender m) as [[u|]|] eqn:Hs; try done.
    unfold passes_filter in Hf.
    destruct (GetMembers.bot u) eqn:Hb; [done|].
    destruct (GetMembers.deleted u) eqn:Hdel; [done|].
    cbn in Hf. injection Hf as <-. by exists m, u.
  - intros peers. rewrite keep_reactor_put.
    eapply Forall_impl; [apply put_provenance|].
    intros [k c] [?|[Hc Hk]]; [by left|]. right. cbn in Hc, Hk. subst k.
    apply list_elem_of_omap in Hc as (e & He & Hf). destruct e as [u|]; [|done].
    destruct (GetMembers.bot u) eqn:Hb; [done|].
    cbn in Hf. injection Hf as <-. by exists u.
Qed.

(** X3: the members file and the statistics file are written together or
    not at all, and only through a usable session; the list written is
    never empty; the statistics give the length of the list as total and no
    count above it. *)
Theorem files_are_written_together (src : GetMembers.Source)
  (self : GetMembers.MemberScraper) :
  let out := GetMembers.run src self in
  GetMembers.stats_file out = GetMembers.make_stats <$> GetMembers.members_file out
  /\ match GetMembers.members_file out with
     | Some members_list => source_ready src = true /\ members_list <> []
     | None => True
     end
  /\ forall members_list,
       let s := GetMembers.make_stats members_list in
       GetMembers.total_members s = length members_list
       /\ GetMembers.with_username s ≤ length members_list
       /\ GetMembers.with_phone s ≤ length members_list
       /\ GetMembers.premium_users s ≤ length members_list
       /\ GetMembers.verified_users s ≤ length members_list.
Proof.
  cbv zeta. split; [|split].
  - unfold GetMembers.run.
    destruct (GetMembers.connect src); try done.
    destruct (GetMembers.is_user_authorized src) as [[|]| |]; try done.
    destruct (GetMembers.get_entity src); try done.
    cbv zeta. by destruct (dict_values _).
  - rewrite run_members_file. destruct (source_ready src); [|done].
    by destruct (dict_values _).
  - intros members_list. unfold GetMembers.make_stats. cbn.
    repeat split; try done; apply length_filter.
Qed.

Lemma put_appends (d0 d : list (Z * CandidateRecord)) c :
  dict_keys d0 `prefix_of` dict_keys d -> dict_keys d0 `prefix_of` dict_keys (put d c).
Proof.
  intros Hp. unfold put. destruct (decide (c_id c ∈ dict_keys d)).
  - by rewrite dict_keys_set_known.
  - rewrite dict_keys_set_new by done. by apply prefix_app_r.
Qed.

(** X4: no pass removes or moves an entry: the ids held before a pass are,
    in the same order, the first ids held after it; a pass only appends. *)
Theorem passes_only_append (src : GetMembers.Source) (limit : Z)
  (self : GetMembers.MemberScraper) :
  let before := dict_keys (GetMembers.all_members self) in
  before `prefix_of`
    dict_keys (GetMembers.all_members (GetMembers.get_members_from_recent src self))
  /\ before `prefix_of`
       dict_keys (GetMembers.all_members
                    (GetMembers.get_members_from_messages src limit self))
  /\ before `prefix_of`
       dict_keys (GetMembers.all_members
                    (GetMembers.get_members_from_reactions src limit self))
  /\ before `prefix_of`
       dict_keys (GetMembers.all_members (GetMembers.get_members_by_search src self))
  /\ before `prefix_of` dict_keys (GetMembers.all_members (scrape src self)).
Proof.
  cbv zeta.
  pose (P := fun d : list (Z * CandidateRecord) =>
               dict_keys (GetMembers.all_members self) `prefix_of` dict_keys d).
  assert (forall d c, P d -> P (put d c)) as Hput by (intros; by apply put_appends).
  assert (P (GetMembers.all_members self)) as Hself
    by (exists []; by rewrite app_nil_r).
  split; [by apply (get_members_from_recent_rule P Hput)|].
  split; [by apply (get_members_from_messages_rule P Hput)|].
  split; [by apply (get_members_from_reactions_rule P Hput)|].
  split; [by apply (get_members_by_search_rule P Hput)|].
  by apply (scrape_rule P Hput).
Qed.

Lemma reactions_loop src messages d t :
  foldl (GetMembers.reactions_of_message src) (d, t) messages =
    (foldl GetMembers.keep_reactor d (answered_reactions src t messages),
     t + length messages).
Proof.
  revert d t. induction messages as [|m ms IH]; intros d t.
  - cbn. f_equal. lia.
  - cbn [foldl answered_reactions length]. unfold GetMembers.reactions_of_message at 2.
    cbn [fst snd]. rewrite foldl_app.
    destruct (GetMembers.get_message_reactions src t (GetMembers.msg_id m));
      cbn [default foldl]; rewrite IH; f_equal; lia.
Qed.

(** X5: the reaction scan skips the messages whose reactions cannot be
    fetched and goes on with the next one: its result is that of the loop
    over the reactors of all the messages that answered, in order, with one
    call made per message; when the messages themselves cannot be fetched
    the dictionary is left as it is. *)
Theorem reaction_scan_skips_failures (src : GetMembers.Source) (limit : Z)
  (self : GetMembers.MemberScraper) :
  let out := GetMembers.get_members_from_reactions src limit self in
  match GetMembers.get_messages src limit with
  | Ok messages =>
      GetMembers.all_members out =
        foldl GetMembers.keep_reactor (GetMembers.all_members self)
          (answered_reactions src (S (GetMembers.clock self)) messages)
      /\ GetMembers.clock out = S (GetMembers.clock self) + length messages
  | _ =>
      GetMembers.all_members out = GetMembers.all_members self
  end
  /\ GetMembers.journal out = GetMembers.journal self.
Proof.
  cbv zeta. unfold GetMembers.get_members_from_reactions.
  destruct (GetMembers.get_messages src limit) as [messages| |]; cbn; try done.
  by rewrite reactions_loop.
Qed.

(** * Properties of the session bootstrap *)

Lemma init_phone_block c st phone :
  exists evs,
    InitSession.journal (InitSession.init_phone c st phone)
    = InitSession.journal st ++ evs
    /\ account_block phone evs.
Proof.
  unfold InitSession.init_phone, InitSession.log_in, account_block, bootstrap_session.
  destruct (InitSession.connect c _ _); cbn.
  - destruct (InitSession.is_user_authorized c _ _) as [[|]|]; cbn.
    + eexists. rewrite <- !app_assoc. split; [reflexivity|].
      exists [], InitSession.AlreadyAuthorized. split; [done|]. by left.
    + destruct (InitSession.send_code_request c _ _); cbn.
      * destruct (InitSession.input c _ _) as [code|]; cbn.
        -- destruct (InitSession.sign_in c _ _ _); cbn;
             (eexists; rewrite <- !app_assoc; split; [reflexivity|]);
             eexists [_; _], _; (split; [reflexivity|]); right; right; by eexists.
        -- eexists. rewrite <- !app_assoc. split; [reflexivity|].
           eexists [_], _. split; [reflexivity|]. right. by left.
      * eexists. rewrite <- !app_assoc. split; [reflexivity|].
        eexists [_], _. split; [reflexivity|]. right. by left.
    + eexists. rewrite <- !app_assoc. split; [reflexivity|].
      exists [], InitSession.Error. split; [done|]. by left.
  - eexists. rewrite <- !app_assoc. split; [reflexivity|].
    exists [], InitSession.Error. split; [done|]. by left.
Qed.

Lemma init_loop_blocks c accounts st :
  exists blocks,
    InitSession.journal (foldl (InitSession.init_phone c) st accounts)
    = InitSession.journal st ++ concat blocks
    /\ Forall2 account_block accounts blocks.
Proof.
  revert st. induction accounts as [|phone accounts IH]; intros st.
  - exists []. cbn. by rewrite app_nil_r.
  - cbn [foldl]. destruct (IH (InitSession.init_phone c st phone)) as (blocks & -> & Hb).
    destruct (init_phone_block c st phone) as (evs & -> & He).
    exists (evs :: blocks). cbn. rewrite <- app_assoc. split; [done|]. by constructor.
Qed.

(** X6: [init_session] handles the configured accounts one by one, in
    order, whatever happens to the others: its journal is one block per
    account, made of a connection, at most one code request, a sign-in only
    after a code request, exactly one report and a disconnection of the same
    session; a login is reported only after a sign-in. *)
Theorem init_session_handles_every_account (accounts : list string)
  (c : InitSession.Console) :
  exists blocks,
    InitSession.journal (InitSession.init_session accounts c) = concat blocks
    /\ Forall2 account_block accounts blocks.
Proof.
  unfold InitSession.init_session.
  destruct (init_loop_blocks c accounts InitSession.start) as (blocks & -> & Hb).
  by exists blocks.
Qed.

Lemma init_phone_no_login c st phone :
  all_authorized c ->
  Forall no_login (InitSession.journal st) ->
  Forall no_login (InitSession.journal (InitSession.init_phone c st phone)).
Proof.
  intros Hauth Hj. unfold InitSession.init_phone.
  destruct (InitSession.connect c _ _); cbn; rewrite ?Hauth; cbn;
    rewrite <- !app_assoc; apply Forall_app; (split; [done|]); by repeat constructor.
Qed.

(** X7: when every session is already authorized, [init_session] asks for
    no code, signs nobody in and reports no login. *)
Theorem authorized_accounts_are_not_asked_a_code (accounts : list string)
  (c : InitSession.Console) :
  all_authorized c ->
  Forall no_login (InitSession.journal (InitSession.init_session accounts c)).
Proof.
  intros Hauth. unfold InitSession.init_session.
  assert (Forall no_login (InitSession.journal InitSession.start)) as Hstart
    by constructor.
  revert Hstart. generalize InitSession.start.
  induction accounts as [|phone accounts IH]; intros st Hst; [done|].
  cbn [foldl]. apply IH. by apply init_phone_no_login.
Qed.

Lemma authorized_accounts_are_not_asked_a_code_witness :
  Forall no_login
    (InitSession.journal (InitSession.init_session ["+100"; "+200"] ready_console)).
Proof.
  apply (authorized_accounts_are_not_asked_a_code ["+100"; "+200"] ready_console).
  intros t s. reflexivity.
Defined.

(** * Further properties of the Dispatcher *)

Section turns.
Variables (cfg : Config) (tg : Telegram).

(** The two ways a turn of the main loop can go: the inner loop runs,
    through an authorized session whose account is below its quota, or
    nothing is attempted. *)
Lemma turn_inv members current_phone st :
  let s := session_of current_phone in
  let st0 := tick (tick (emit [EvConnect s] (tick st))) in
  let out := outcome (add_members cfg tg s current_phone members st0) in
  ((connect tg (clock st) s = true
    /\ is_user_authorized tg (S (clock st)) s = Some true
    /\ get_entity tg (S (S (clock st))) s = true)
   /\ (exists n, stats st !! current_phone = Some n
                 /\ (n < max_adds_per_day_per_account cfg)%Z)
   /\ exists tail,
        turn_end s tail
        /\ turn cfg tg members current_phone st
           = (out.1, (current_phone, emit tail out.2)))
  \/ (exists phone' st' tail,
        turn cfg tg members current_phone st = (members, (phone', st'))
        /\ journal st' = journal st ++ EvConnect s :: tail
        /\ turn_end s tail
        /\ stats st' = stats st /\ added st' = added st
        /\ progress_file st' = progress_file st
        /\ (phone' = current_phone
            \/ accounts cfg !! current_account_index st' = Some phone')).
Proof.
  cbv zeta. unfold turn, try_block, turn_end.
  destruct (connect tg _ _);
    [|right; eexists _, _, _; (split; [reflexivity|]); fields;
       rewrite <- ?app_assoc; repeat split; eauto].
  fields.
  destruct (is_user_authorized tg _ _) as [[|]|] eqn:Hauth;
    [| |right; eexists _, _, _; (split; [reflexivity|]); fields;
       rewrite <- ?app_assoc; repeat split; eauto].
  - destruct (get_entity tg _ _);
      [|right; eexists _, _, _; (split; [reflexivity|]); fields;
       rewrite <- ?app_assoc; repeat split; eauto].
    destruct (stats st !! current_phone) as [n|] eqn:Hn;
      [|right; eexists _, _, _; (split; [reflexivity|]); fields;
       rewrite <- ?app_assoc; repeat split; eauto].
    case_bool_decide as Hfull.
    + right. unfold rotate. fields.
      destruct (accounts cfg !! _) as [phone'|] eqn:Hp; cbn [with_members];
        eexists _, _, _; (split; [reflexivity|]); fields;
        rewrite <- ?app_assoc; repeat split; eauto.
    + left. split; [done|]. split; [exists n; split; [done | lia]|].
      destruct (add_members cfg tg _ _ _ _) as [[m' st']|[m' st']];
        cbn [with_phone outcome fst snd]; eexists; (split; [|reflexivity]);
        [by left | by right].
  - right. unfold rotate. fields.
    destruct (accounts cfg !! _) as [phone'|] eqn:Hp; cbn [with_members];
      eexists _, _, _; (split; [reflexivity|]); fields;
      rewrite <- ?app_assoc; repeat split; eauto.
Qed.

Lemma add_members_same_client session_file current_phone members st :
  same_client cfg session_file current_phone st
    (outcome (add_members cfg tg session_file current_phone members st)).2.
Proof.
  apply (add_members_rule cfg tg
           (fun _ st' => same_client cfg session_file current_phone st st')
           (fun _ st' => same_client cfg session_file current_phone st st'));
    [tauto | tauto | | apply same_client_refl].
  intros user_data rest st1 Hs _.
  pose proof (same_client_add_member cfg tg session_file current_phone st user_data st1 Hs)
    as Hs1.
  destruct (add_member cfg tg session_file user_data st1) as [ok st2]. fields.
  destruct ok.
  - pose proof (same_client_record_success cfg session_file current_phone st user_data st2 Hs1)
      as Hs2.
    destruct (record_success current_phone user_data st2) as [st3|st3];
      cbn [outcome] in Hs2; [|done].
    destruct (stats st3 !! current_phone); [|done]. by case_bool_decide.
  - destruct (stats st2 !! current_phone); [|done]. by case_bool_decide.
Qed.

Lemma add_members_books session_file current_phone members st :
  is_Some (stats st !! current_phone) ->
  inner_books cfg st
    (outcome (add_members cfg tg session_file current_phone members st)).2.
Proof.
  intros Hkey.
  apply (add_members_rule cfg tg
           (fun _ st' => is_Some (stats st' !! current_phone) /\ inner_books cfg st st')
           (fun _ st' => inner_books cfg st st')); [tauto | tauto | |].
  - intros user_data rest st1 [[n Hn] (Hpre & Hlen & Hsave)] Hlt.
    pose proof (add_member_frame cfg tg session_file user_data st1) as (Hs & Ha & Hp & _).
    destruct (add_member cfg tg session_file user_data st1) as [ok st2]. fields.
    destruct ok.
    + unfold record_success. fields. rewrite Hs, Hn. fields.
      rewrite lookup_insert_eq.
      assert (inner_books cfg st
                (save_progress
                   (set_stats (<[current_phone:=(n + 1)%Z]> (stats st1))
                      (set_added (added st2 ++ [user_data]) st2)))) as Hb.
      { split; [|split]; fields.
        - rewrite Ha. by apply prefix_app_r.
        - rewrite Ha, length_app. cbn. lia.
        - by right. }
      case_bool_decide; [done|]. split; [|done]. fields. by eexists.
    + rewrite Hs, Hn.
      assert (inner_books cfg st st2) as Hb.
      { split; [|split]; rewrite ?Ha, ?Hp, ?Hs; done. }
      case_bool_decide; [done|]. split; [|done]. by eexists.
  - split; [done|]. split; [done|]. split; [lia|]. by left.
Qed.

End turns.

Lemma total_delete (m : gmap string Z) (phone : string) (n : Z) :
  m !! phone = Some n -> total m = (n + total (delete phone m))%Z.
Proof.
  intros Hn. unfold total.
  apply (map_fold_delete_L (fun _ n acc => (n + acc)%Z) 0%Z phone n m); [|done].
  intros. lia.
Qed.

Lemma total_zero (m : gmap string Z) :
  (forall phone n, m !! phone = Some n -> n = 0%Z) -> total m = 0%Z.
Proof.
  induction m as [|phone n m Hfresh IH] using map_ind; intros Hz; [done|].
  unfold total. rewrite map_fold_insert_L; [|intros; lia|done].
  fold (total m). rewrite IH.
  - rewrite (Hz phone n); [done|]. apply lookup_insert_eq.
  - intros q k Hq. apply (Hz q k). rewrite lookup_insert_ne; [done|].
    intros ->. congruence.
Qed.

Section books.
Variables (cfg : Config) (tg : Telegram).

(** The counters after the inner loop, from what [same_client] tells. *)
Lemma same_client_counters session_file current_phone st0 st n :
  same_client cfg session_file current_phone st0 st ->
  stats st0 !! current_phone = Some n ->
  dom (stats st) = dom (stats st0)
  /\ total (stats st)
     = (total (stats st0)
        + (Z.of_nat (length (added st)) - Z.of_nat (length (added st0))))%Z.
Proof.
  intros (_ & Hdel & Hcur) Hn. rewrite Hn in Hcur. cbn in Hcur. split.
  - apply set_eq. intros q. rewrite !elem_of_dom.
    destruct (decide (q = current_phone)) as [->|Hq].
    + rewrite Hcur, Hn. split; eauto.
    + rewrite <- (lookup_delete_ne (stats st) current_phone q) by done.
      rewrite <- (lookup_delete_ne (stats st0) current_phone q) by done.
      by rewrite Hdel.
  - rewrite (total_delete _ _ _ Hcur), (total_delete _ _ _ Hn), Hdel. lia.
Qed.

Lemma turn_ledger members current_phone st :
  ledger cfg current_phone st ->
  let next := turn cfg tg members current_phone st in
  ledger cfg next.2.1 next.2.2.
Proof.
  intros (Hphone & Hdom & Htotal & Hcheck). cbv zeta.
  destruct (turn_inv cfg tg members current_phone st)
    as [(_ & (n & Hn & _) & tail & _ & ->)
       |(phone' & st' & tail & -> & _ & _ & Hs & Ha & Hp & Hphone')].
  - cbn [fst snd].
    set (st0 := tick (tick (emit [EvConnect (session_of current_phone)] (tick st)))).
    pose proof (add_members_same_client cfg tg (session_of current_phone)
                  current_phone members st0) as Hsame.
    pose proof (add_members_books cfg tg (session_of current_phone)
                  current_phone members st0) as Hbooks.
    destruct (same_client_counters _ _ _ _ n Hsame) as [Hdom' Htotal']; [done|].
    destruct Hbooks as (_ & _ & Hsave); [by exists n|].
    set (st1 := (outcome (add_members cfg tg (session_of current_phone)
                            current_phone members st0)).2) in *.
    split; [done|]. fields. split; [by rewrite Hdom'|].
    split; [rewrite Htotal'; subst st0; fields; lia|].
    unfold checkpoint_current. fields.
    destruct Hsave as [(Ha & Hp & Hs)|Hsaved]; [|by right].
    subst st0. fields. rewrite Ha, Hp, Hs. exact Hcheck.
  - cbn [fst snd]. split.
    + destruct Hphone' as [->|Hl]; [done|]. by eapply list_elem_of_lookup_2.
    + unfold checkpoint_current in *. rewrite Hs, Ha, Hp. done.
Qed.

Lemma init_ledger current_phone :
  current_phone ∈ accounts cfg -> ledger cfg current_phone (set_added [] (init cfg)).
Proof.
  intros Hphone. split; [done|]. unfold init. fields. split; [|split].
  - rewrite dom_list_to_map_L. f_equal. rewrite <- list_fmap_compose.
    apply list_fmap_id.
  - apply total_zero. intros p n Hl%elem_of_list_to_map_2.
    by apply list_elem_of_fmap in Hl as (q & [= -> ->] & _).
  - by left.
Qed.

Lemma run_ledger fuel file st :
  state_of (run fuel cfg tg file (init cfg)) = Some st ->
  dom (stats st) = list_to_set (accounts cfg)
  /\ total (stats st) = Z.of_nat (length (added st))
  /\ checkpoint_current st.
Proof.
  unfold run. destruct (load_members file) as [|u members]; [done|].
  destruct (accounts cfg !! _) as [phone|] eqn:Hphone; [|done].
  pose proof (main_loop_rule cfg tg (fun _ p st => ledger cfg p st)) as Hrule.
  cbv beta in Hrule.
  specialize (Hrule (fun m p st H _ _ => turn_ledger m p st H)).
  specialize (Hrule fuel (u :: members) phone (set_added [] (init cfg))).
  destruct (main_loop _ _ _ _ _ _) as [| |st'|m' p' st']; cbn [state_of]; try done.
  - destruct Hrule as (m0 & p0 & st0 & (_ & Hd & Ht & _) & -> & _).
    { apply init_ledger. by eapply list_elem_of_lookup_2. }
    intros [= <-]. fields. split; [done|]. split; [done|]. by right.
  - intros [= <-]. destruct Hrule as (_ & ? & ? & ?); [|done].
    apply init_ledger. by eapply list_elem_of_lookup_2.
Qed.

End books.

(** X8: in every state a run reaches, the daily counters add up to the
    number of records added: each addition is counted once, against one
    account. *)
Theorem counters_add_up_to_the_added (cfg : Config) (tg : Telegram)
  (file : option (list CandidateRecord)) (fuel : nat) (st : State) :
  state_of (run fuel cfg tg file (init cfg)) = Some st ->
  total (stats st) = Z.of_nat (length (added st)).
Proof. intros Hrun. by apply (run_ledger cfg tg fuel file st Hrun). Qed.

Lemma counters_add_up_to_the_added_witness :
  total (stats two_phones_state) = Z.of_nat (length (added two_phones_state)).
Proof.
  apply (counters_add_up_to_the_added (config_of ["+100"; "+200"] 3 1 5 5) willing
           (Some [candidate 1; candidate 2; candidate 3]) 5 two_phones_state).
  vm_compute. reflexivity.
Defined.

(** X9: in every state a run reaches between two turns of its main loop,
    the progress file is up to date: it holds the current added list and the
    current counters, or it has not been written yet and nothing has been
    added. *)
Theorem progress_file_is_current (cfg : Config) (tg : Telegram)
  (file : option (list CandidateRecord)) (fuel : nat) (st : State) :
  state_of (run fuel cfg tg file (init cfg)) = Some st ->
  (progress_file st = None /\ added st = [])
  \/ progress_file st = Some {| added_members := added st; daily_stats := stats st |}.
Proof. intros Hrun. by apply (run_ledger cfg tg fuel file st Hrun). Qed.

Lemma progress_file_is_current_witness :
  (progress_file rate_limited_state = None /\ added rate_limited_state = [])
  \/ progress_file rate_limited_state
     = Some {| added_members := added rate_limited_state;
               daily_stats := stats rate_limited_state |}.
Proof.
  apply (progress_file_is_current (config_of ["+100"] 2 5 5 5) rate_limiting
           (Some [candidate 1; candidate 2; candidate 3]) 3 rate_limited_state).
  vm_compute. reflexivity.
Defined.

(** X10: the accounts that have a daily counter are exactly the configured
    ones, in every state a run reaches: the lookups of [daily_stats] in
    [run] never miss, and no counter is created for anything else. *)
Theorem counters_are_those_of_the_accounts (cfg : Config) (tg : Telegram)
  (file : option (list CandidateRecord)) (fuel : nat) (st : State) :
  state_of (run fuel cfg tg file (init cfg)) = Some st ->
  dom (stats st) = list_to_set (accounts cfg).
Proof. intros Hrun. by apply (run_ledger cfg tg fuel file st Hrun). Qed.

Lemma counters_are_those_of_the_accounts_witness :
  dom (stats two_phones_state) = list_to_set ["+100"; "+200"]%string.
Proof.
  apply (counters_are_those_of_the_accounts (config_of ["+100"; "+200"] 3 1 5 5) willing
           (Some [candidate 1; candidate 2; candidate 3]) 5 two_phones_state).
  vm_compute. reflexivity.
Defined.

(** ** The order of the attempts, and the sessions used *)

Lemma attempted_turn_end session_file tail :
  turn_end session_file tail -> attempted tail = [].
Proof. by intros [-> | ->]. Qed.

Lemma on_session_quiet session_file evs :
  Forall (on_session session_file) evs -> connects evs = [] /\ disconnects evs = [].
Proof.
  induction 1 as [|e evs He _ [IHc IHd]]; [done|].
  destruct e; cbn in He |- *; done.
Qed.

Section order.
Variables (cfg : Config) (tg : Telegram).

Lemma add_member_attempted session_file user_data st :
  attempted (journal (add_member cfg tg session_file user_data st).2)
  = attempted (journal st) ++ [user_data].
Proof.
  unfold add_member. destruct (invite tg _ _ _); fields;
    try destruct (randint _ _ _ _); fields; rewrite !attempted_app; cbn;
    by rewrite ?app_nil_r.
Qed.

Lemma in_file_order_step session_file current_phone user_data st :
  in_file_order cfg st ->
  (Z.of_nat (length (added st)) < members_to_add cfg)%Z ->
  let r := add_member cfg tg session_file user_data st in
  in_file_order cfg
    (outcome (if r.1 then record_success current_phone user_data r.2 else Normal r.2)).
Proof.
  intros [Hsub Hlen] Hlt. cbv zeta.
  pose proof (add_member_attempted session_file user_data st) as Hatt.
  pose proof (add_member_frame cfg tg session_file user_data st) as (_ & Ha & _).
  destruct (add_member cfg tg session_file user_data st) as [ok st1]. fields.
  destruct ok.
  - unfold record_success. fields.
    assert (in_file_order cfg (set_added (added st1 ++ [user_data]) st1)) as Hin.
    { split; fields.
      - rewrite Hatt, Ha. by apply sublist_app.
      - rewrite length_app, Ha. cbn. lia. }
    destruct (stats st1 !! current_phone); cbn [outcome]; [|done].
    destruct Hin. split; done.
  - cbn [outcome]. split; rewrite ?Hatt, Ha; [|done]. by apply sublist_inserts_r.
Qed.

Lemma add_members_in_file_order session_file current_phone members st :
  in_file_order cfg st ->
  in_file_order cfg
    (outcome (add_members cfg tg session_file current_phone members st)).2.
Proof.
  intros Hin.
  apply (add_members_rule cfg tg (fun _ st => in_file_order cfg st)
           (fun _ st => in_file_order cfg st)); [tauto | tauto | | done].
  clear. intros user_data rest st Hin Hlt.
  pose proof (in_file_order_step session_file current_phone user_data st Hin Hlt) as Hs.
  cbv zeta in Hs |- *.
  destruct (if (add_member cfg tg session_file user_data st).1 then _ else _) as [st2|st2];
    cbn [outcome] in Hs; [|done].
  destruct (stats st2 !! current_phone); [|done]. by case_bool_decide.
Qed.

Lemma turn_in_file_order members current_phone st :
  in_file_order cfg st ->
  in_file_order cfg (turn cfg tg members current_phone st).2.2.
Proof.
  intros [Hsub Hlen].
  destruct (turn_inv cfg tg members current_phone st)
    as [(_ & _ & tail & Hend & ->)
       |(phone' & st' & tail & -> & Hj & Hend & _ & Ha & _)].
  - cbn [fst snd].
    set (st0 := tick (tick (emit [EvConnect (session_of current_phone)] (tick st)))).
    destruct (add_members_in_file_order (session_of current_phone) current_phone
                members st0) as [Hsub' Hlen'].
    { split; subst st0; fields; [|done]. rewrite attempted_app. cbn.
      by rewrite app_nil_r. }
    split; fields; [|done].
    by rewrite attempted_app, (attempted_turn_end _ _ Hend), app_nil_r.
  - cbn [fst snd]. split; rewrite Ha; [|done].
    rewrite Hj, attempted_app.
    change (attempted (EvConnect (session_of current_phone) :: tail))
      with (attempted tail).
    by rewrite (attempted_turn_end _ _ Hend), app_nil_r.
Qed.

Lemma run_in_file_order fuel file st :
  state_of (run fuel cfg tg file (init cfg)) = Some st -> in_file_order cfg st.
Proof.
  unfold run. destruct (load_members file) as [|u members]; [done|].
  destruct (accounts cfg !! _) as [phone|]; [|done].
  assert (in_file_order cfg (set_added [] (init cfg))) as Hinit.
  { split; cbn; [apply sublist_nil_l | lia]. }
  pose proof (main_loop_rule cfg tg (fun _ _ st => in_file_order cfg st)) as Hrule.
  cbv beta in Hrule.
  specialize (Hrule (fun m p st H _ _ => turn_in_file_order m p st H)).
  specialize (Hrule fuel (u :: members) phone _ Hinit).
  destruct (main_loop _ _ _ _ _ _) as [| |st'|m' p' st']; cbn [state_of]; try done.
  - destruct Hrule as (m0 & p0 & st0 & [? ?] & -> & _). intros [= <-]. by split.
  - by intros [= <-].
Qed.

(** The sessions opened and closed, and who was invited through what. *)
Lemma turn_sessions members current_phone st :
  (current_phone ∈ accounts cfg
   /\ connects (journal st) = disconnects (journal st)
   /\ Forall (through_configured cfg) (journal st)) ->
  let next := turn cfg tg members current_phone st in
  next.2.1 ∈ accounts cfg
  /\ connects (journal next.2.2) = disconnects (journal next.2.2)
  /\ Forall (through_configured cfg) (journal next.2.2).
Proof.
  intros (Hphone & Hbal & Hauth). cbv zeta.
  assert (forall tail, turn_end (session_of current_phone) tail ->
            connects tail = [] /\ disconnects tail = [session_of current_phone]
            /\ Forall (through_configured cfg) tail) as Htail.
  { intros tail [-> | ->]; repeat split; by repeat constructor. }
  destruct (turn_inv cfg tg members current_phone st)
    as [(Hok & _ & tail & Hend & ->)
       |(phone' & st' & tail & -> & Hj & Hend & _ & _ & _ & Hphone')];
    destruct (Htail tail Hend) as (Hc & Hd & Ht); cbn [fst snd].
  - set (st0 := tick (tick (emit [EvConnect (session_of current_phone)] (tick st)))).
    destruct (add_members_same_client cfg tg (session_of current_phone) current_phone
                members st0) as ((evs & Hj & Hon & _) & _).
    destruct (on_session_quiet _ _ Hon) as [Hce Hde].
    split; [done|]. fields. rewrite Hj. subst st0. fields.
    unfold connects, disconnects in *. rewrite !omap_app.
    rewrite Hbal, Hc, Hd, Hce, Hde. cbn. rewrite ?app_nil_r. split; [done|].
    repeat (apply Forall_app; split); try done; [by repeat constructor|].
    eapply Forall_impl; [exact Hon|]. intros [] He; try done. cbn in He. subst.
    by exists current_phone.
  - split.
    { destruct Hphone' as [->|Hl]; [done|]. by eapply list_elem_of_lookup_2. }
    rewrite Hj. unfold connects, disconnects in *.
    change (EvConnect (session_of current_phone) :: tail)
      with ([EvConnect (session_of current_phone)] ++ tail).
    rewrite !omap_app, Hbal, Hc, Hd. cbn. rewrite ?app_nil_r. split; [done|].
    repeat (apply Forall_app; split); try done. by repeat constructor.
Qed.

Lemma run_sessions fuel file st :
  state_of (run fuel cfg tg file (init cfg)) = Some st ->
  connects (journal st) = disconnects (journal st)
  /\ Forall (through_configured cfg) (journal st).
Proof.
  unfold run. destruct (load_members file) as [|u members]; [done|].
  destruct (accounts cfg !! _) as [phone|] eqn:Hphone; [|done].
  pose proof (main_loop_rule cfg tg
                (fun _ p st => p ∈ accounts cfg
                               /\ connects (journal st) = disconnects (journal st)
                               /\ Forall (through_configured cfg) (journal st)))
    as Hrule.
  cbv beta in Hrule.
  specialize (Hrule (fun m p st H _ _ => turn_sessions m p st H)).
  specialize (Hrule fuel (u :: members) phone (set_added [] (init cfg))).
  destruct (main_loop _ _ _ _ _ _) as [| |st'|m' p' st']; cbn [state_of]; try done.
  - destruct Hrule as (m0 & p0 & st0 & (_ & ? & ?) & -> & _).
    { split; [by eapply list_elem_of_lookup_2|]. split; [done | constructor]. }
    intros [= <-]. by split.
  - intros [= <-]. destruct Hrule as (_ & ? & ?); [|done].
    split; [by eapply list_elem_of_lookup_2|]. split; [done | constructor].
Qed.

End order.

(** X11: candidates are attempted in the order of the file, oldest first
    and each position once: the candidates attempted so far are the first
    ones of the loaded list.  The added list is made of attempted candidates
    in that same order, so it is a sublist of the file, and it never holds
    more records than the target. *)
Theorem candidates_are_taken_in_file_order (cfg : Config) (tg : Telegram)
  (members : list CandidateRecord) (fuel : nat) (st : State) :
  state_of (run fuel cfg tg (Some members) (init cfg)) = Some st ->
  attempted (journal st) `prefix_of` members
  /\ added st `sublist_of` attempted (journal st)
  /\ added st `sublist_of` members
  /\ (Z.of_nat (length (added st)) ≤ Z.max 0 (members_to_add cfg))%Z.
Proof.
  intros Hrun.
  destruct (run_popped_once cfg tg fuel members st Hrun) as (left & Hatt & _).
  destruct (run_in_file_order cfg tg fuel (Some members) st Hrun) as [Hsub Hlen].
  split; [by exists left|]. split; [done|]. split; [|done].
  rewrite <- Hatt. by apply sublist_inserts_r.
Qed.

Lemma candidates_are_taken_in_file_order_witness :
  attempted (journal rate_limited_state)
    `prefix_of` [candidate 1; candidate 2; candidate 3]
  /\ added rate_limited_state `sublist_of` attempted (journal rate_limited_state)
  /\ added rate_limited_state `sublist_of` [candidate 1; candidate 2; candidate 3]
  /\ (Z.of_nat (length (added rate_limited_state)) ≤ Z.max 0 2)%Z.
Proof.
  apply (candidates_are_taken_in_file_order (config_of ["+100"] 2 5 5 5) rate_limiting
           [candidate 1; candidate 2; candidate 3] 3 rate_limited_state).
  vm_compute. reflexivity.
Defined.

(** X12: between two turns of the main loop no client is left connected:
    the sessions connected and the sessions disconnected so far are the same
    sequence ([finally] disconnects the client the turn created, whether the
    turn ended normally, by [continue] or by an exception). *)
Theorem every_client_is_disconnected (cfg : Config) (tg : Telegram)
  (file : option (list CandidateRecord)) (fuel : nat) (st : State) :
  state_of (run fuel cfg tg file (init cfg)) = Some st ->
  connects (journal st) = disconnects (journal st).
Proof. intros Hrun. by apply (run_sessions cfg tg fuel file st Hrun). Qed.

Lemma every_client_is_disconnected_witness :
  connects (journal two_phones_state) = disconnects (journal two_phones_state).
Proof.
  apply (every_client_is_disconnected (config_of ["+100"; "+200"] 3 1 5 5) willing
           (Some [candidate 1; candidate 2; candidate 3]) 5 two_phones_state).
  vm_compute. reflexivity.
Defined.

(** ** The rotation and misconfigured delays *)

Lemma switch_account_iter (cfg : Config) (st : State) (k : nat) :
  current_account_index st < length (accounts cfg) ->
  Nat.iter k (switch_account cfg) st
  = set_index ((current_account_index st + k) `mod` length (accounts cfg)) st.
Proof.
  intros Hi. induction k as [|k IH].
  - cbn [Nat.iter]. rewrite Nat.add_0_r, Nat.mod_small by done. by destruct st.
  - rewrite Nat.iter_succ, IH. unfold switch_account. fields.
    rewrite Nat.Div0.add_mod_idemp_l. destruct st. unfold set_index. fields.
    do 2 f_equal. lia.
Qed.

Section empty_range.
Variables (cfg : Config) (tg : Telegram).
Hypothesis Hrange : (max_delay cfg < min_delay cfg)%Z.

Lemma add_member_empty_range session_file user_data st :
  (add_member cfg tg session_file user_data st).1 = false.
Proof using Hrange.
  unfold add_member, randint. destruct (invite tg _ _ _); try done.
  case_bool_decide; [lia | done].
Qed.

Lemma add_members_empty_range session_file current_phone members st :
  let out := outcome (add_members cfg tg session_file current_phone members st) in
  added out.2 = added st /\ stats out.2 = stats st.
Proof using Hrange.
  apply (add_members_rule cfg tg
           (fun _ st' => added st' = added st /\ stats st' = stats st)
           (fun _ st' => added st' = added st /\ stats st' = stats st));
    [tauto | tauto | | done].
  intros user_data rest st1 [Ha Hs] _. cbv zeta.
  pose proof (add_member_empty_range session_file user_data st1) as Hfalse.
  pose proof (add_member_frame cfg tg session_file user_data st1) as (Hs' & Ha' & _).
  destruct (add_member cfg tg session_file user_data st1) as [ok st2]. fields.
  subst ok. rewrite Ha', Hs'.
  destruct (stats st1 !! current_phone); [|done]. by case_bool_decide.
Qed.

Lemma turn_empty_range members current_phone st :
  let next := turn cfg tg members current_phone st in
  added next.2.2 = added st /\ stats next.2.2 = stats st.
Proof using Hrange.
  cbv zeta.
  destruct (turn_inv cfg tg members current_phone st)
    as [(_ & _ & tail & _ & ->)
       |(phone' & st' & tail & -> & _ & _ & Hs & Ha & _)]; cbn [fst snd]; [|done].
  fields.
  apply (add_members_empty_range (session_of current_phone) current_phone members
           (tick (tick (emit [EvConnect (session_of current_phone)] (tick st))))).
Qed.

Lemma run_empty_range fuel file st :
  state_of (run fuel cfg tg file (init cfg)) = Some st ->
  added st = [] /\ stats st = stats (init cfg).
Proof using Hrange.
  unfold run. destruct (load_members file) as [|u members]; [done|].
  destruct (accounts cfg !! _) as [phone|]; [|done].
  pose proof (main_loop_rule cfg tg
                (fun _ _ st => added st = [] /\ stats st = stats (init cfg))) as Hrule.
  cbv beta in Hrule.
  assert (forall members current_phone st,
            added st = [] /\ stats st = stats (init cfg) ->
            (Z.of_nat (length (added st)) < members_to_add cfg)%Z ->
            members <> [] ->
            let next := turn cfg tg members current_phone st in
            added next.2.2 = [] /\ stats next.2.2 = stats (init cfg)) as Hturn.
  { intros m p st0 [Ha Hs] _ _. cbv zeta.
    destruct (turn_empty_range m p st0) as [-> ->]. done. }
  specialize (Hrule Hturn fuel (u :: members) phone (set_added [] (init cfg))).
  destruct (main_loop _ _ _ _ _ _) as [| |st'|m' p' st']; cbn [state_of]; try done.
  - destruct Hrule as (m0 & p0 & st0 & [? ?] & -> & _); [done|]. by intros [= <-].
  - intros [= <-]. by apply Hrule.
Qed.

End empty_range.

(** X14: the rotation is a cycle over the configured accounts.  From an
    index in range, [k] calls of [switch_account] lead to the index
    [(i + k) mod R], where [R] is the number of accounts; [R] calls bring the
    object back to the state it started from, and every account is reached
    within [R - 1] calls. *)
Theorem rotation_is_a_cycle (cfg : Config) (st : State) :
  current_account_index st < length (accounts cfg) ->
  (forall k,
      current_account_index (Nat.iter k (switch_account cfg) st)
      = (current_account_index st + k) `mod` length (accounts cfg))
  /\ Nat.iter (length (accounts cfg)) (switch_account cfg) st = st
  /\ (forall j, j < length (accounts cfg) ->
        exists k, k < length (accounts cfg)
                  /\ current_account_index (Nat.iter k (switch_account cfg) st) = j).
Proof.
  intros Hi. split; [|split].
  - intros k. by rewrite switch_account_iter.
  - rewrite switch_account_iter by done.
    rewrite <- Nat.Div0.add_mod_idemp_r, Nat.Div0.mod_same, Nat.add_0_r,
      Nat.mod_small by done.
    by destruct st.
  - intros j Hj.
    exists ((j + length (accounts cfg) - current_account_index st)
              `mod` length (accounts cfg)).
    split; [apply Nat.mod_upper_bound; lia|].
    rewrite switch_account_iter by done. fields.
    rewrite Nat.Div0.add_mod_idemp_r.
    replace (current_account_index st
             + (j + length (accounts cfg) - current_account_index st))
      with (j + length (accounts cfg)) by lia.
    rewrite <- Nat.Div0.add_mod_idemp_r, Nat.Div0.mod_same, Nat.add_0_r.
    by apply Nat.mod_small.
Qed.

Lemma rotation_is_a_cycle_witness :
  (forall k,
      current_account_index
        (Nat.iter k (switch_account (config_of ["+100"; "+200"] 3 1 5 5))
           (init (config_of ["+100"; "+200"] 3 1 5 5)))
      = (0 + k) `mod` 2)
  /\ Nat.iter 2 (switch_account (config_of ["+100"; "+200"] 3 1 5 5))
       (init (config_of ["+100"; "+200"] 3 1 5 5))
     = init (config_of ["+100"; "+200"] 3 1 5 5)
  /\ (forall j, j < 2 ->
        exists k, k < 2
                  /\ current_account_index
                       (Nat.iter k (switch_account (config_of ["+100"; "+200"] 3 1 5 5))
                          (init (config_of ["+100"; "+200"] 3 1 5 5))) = j).
Proof.
  apply (rotation_is_a_cycle (config_of ["+100"; "+200"] 3 1 5 5)
           (init (config_of ["+100"; "+200"] 3 1 5 5))).
  cbn. lia.
Defined.

(** X16: when [min_delay] is above [max_delay], [random.randint] raises
    after the invitation has been sent and [add_member] returns [False]:
    whatever the service answers, no candidate is ever recorded as added and
    no daily counter moves. *)
Theorem empty_delay_range_records_nothing (cfg : Config) (tg : Telegram)
  (file : option (list CandidateRecord)) (fuel : nat) (st : State) :
  (max_delay cfg < min_delay cfg)%Z ->
  state_of (run fuel cfg tg file (init cfg)) = Some st ->
  added st = [] /\ stats st = stats (init cfg).
Proof. intros Hrange Hrun. by apply (run_empty_range cfg tg Hrange fuel file st). Qed.

Lemma empty_delay_range_records_nothing_witness :
  added misconfigured_state = []
  /\ stats misconfigured_state = stats (init (config_of ["+100"] 2 5 5 3)).
Proof.
  apply (empty_delay_range_records_nothing (config_of ["+100"] 2 5 5 3) willing
           (Some [candidate 1; candidate 2; candidate 3]) 1 misconfigured_state).
  - cbn. lia.
  - vm_compute. reflexivity.
Defined.

(** * Rotation and the client in use, turn by turn *)

Section rotation.
Variables (cfg : Config) (tg : Telegram).

(** The loop is still running only where its condition holds. *)
Lemma main_loop_running fuel members current_phone st m p st' :
  main_loop fuel cfg tg members current_phone st = Running m p st' ->
  (Z.of_nat (length (added st')) < members_to_add cfg)%Z /\ m <> [].
Proof.
  revert members current_phone st.
  induction fuel as [|fuel IH]; intros members current_phone st; cbn [main_loop];
    destruct (bool_decide _ && negb (bool_decide _)) eqn:Hc; try done.
  - intros [= <- <- <-]. apply andb_true_iff in Hc as [Hlt Hne].
    apply bool_decide_eq_true in Hlt.
    apply negb_true_iff, bool_decide_eq_false in Hne. done.
  - destruct (turn cfg tg members current_phone st) as [m1 [p1 st1]]. apply IH.
Qed.

(** One more turn of a run that has not finished is [turn] applied to the
    state it had reached. *)
Lemma run_step fuel file self members current_phone st :
  run fuel cfg tg file self = Running members current_phone st ->
  let next := turn cfg tg members current_phone st in
  run (S fuel) cfg tg file self = main_loop 0 cfg tg next.1 next.2.1 next.2.2.
Proof.
  unfold run. destruct (load_members file) as [|u l]; [done|].
  destruct (accounts cfg !! _) as [phone|]; [|done].
  intros Hrun. cbv zeta.
  destruct (main_loop_running _ _ _ _ _ _ _ Hrun) as [Hlt Hne].
  rewrite <- Nat.add_1_r, main_loop_add, Hrun.
  change (main_loop 1 cfg tg members current_phone st)
    with (if bool_decide (Z.of_nat (length (added st)) < members_to_add cfg)%Z
             && negb (bool_decide (members = []))
          then let '(m1, (p1, st1)) := turn cfg tg members current_phone st in
               main_loop 0 cfg tg m1 p1 st1
          else Completed (save_progress st)).
  rewrite bool_decide_eq_true_2 by done.
  rewrite (bool_decide_eq_false_2 (members = [])) by done. cbn [andb negb].
  by destruct (turn cfg tg members current_phone st) as [m1 [p1 st1]].
Qed.

Lemma run_running_phone fuel file members current_phone st :
  run fuel cfg tg file (init cfg) = Running members current_phone st ->
  current_phone ∈ accounts cfg.
Proof.
  unfold run. destruct (load_members file) as [|u l]; [done|].
  destruct (accounts cfg !! _) as [phone|] eqn:Hphone; [|done].
  pose proof (main_loop_rule cfg tg (fun _ p st => ledger cfg p st)) as Hrule.
  cbv beta in Hrule.
  specialize (Hrule (fun m p st H _ _ => turn_ledger cfg tg m p st H)).
  specialize (Hrule fuel (u :: l) phone (set_added [] (init cfg))).
  intros Hrun. rewrite Hrun in Hrule. apply Hrule.
  apply init_ledger. by eapply list_elem_of_lookup_2.
Qed.

Lemma turn_keeps_phone members current_phone st :
  rotates_away cfg tg current_phone st = false ->
  (turn cfg tg members current_phone st).2.1 = current_phone.
Proof.
  unfold rotates_away, turn, try_block. cbv zeta.
  destruct (connect tg _ _); [|done]. fields. cbn [andb].
  destruct (is_user_authorized tg _ _) as [[|]|]; [|done|done].
  destruct (get_entity tg _ _); [|done]. cbn [andb].
  destruct (stats st !! current_phone); [|done].
  case_bool_decide; [done|]. intros _.
  by destruct (add_members cfg tg _ _ _ _) as [[m' st']|[m' st']].
Qed.

Lemma turn_round_robin members current_phone st :
  current_account_index st < length (accounts cfg) ->
  round_robin_turn cfg tg members current_phone st.
Proof.
  intros Hi. unfold round_robin_turn, rotates_away. cbv zeta.
  pose proof (Nat.mod_upper_bound (current_account_index st + 1)
                (length (accounts cfg))) as Hmod.
  unfold turn, try_block.
  destruct (connect tg _ _); cbn [andb].
  2: { fields. split; [|done]. eexists. split; [by rewrite <- ?app_assoc|]. by cbn. }
  fields.
  destruct (is_user_authorized tg _ _) as [[|]|].
  3: { fields. split; [|done]. eexists. split; [by rewrite <- ?app_assoc|]. by cbn. }
  - destruct (get_entity tg _ _); cbn [andb].
    2: { fields. split; [|done]. eexists. split; [by rewrite <- ?app_assoc|]. by cbn. }
    destruct (stats st !! current_phone) as [n|].
    2: { fields. split; [|done]. eexists. split; [by rewrite <- ?app_assoc|]. by cbn. }
    case_bool_decide.
    + unfold rotate. fields.
      destruct (accounts cfg !! _) as [phone'|] eqn:Hp; cbn [with_members fst snd]; fields.
      2: { apply lookup_ge_None in Hp. lia. }
      split; [eexists; split; [by rewrite <- ?app_assoc | by cbn]|].
      split; [done|].
      split; [rewrite !attempted_app; cbn; by rewrite !app_nil_r|].
      split; [done|]. split; [done|]. split; [done|]. split; [|done].
      intros Hl. rewrite Nat.add_1_r, Hl. apply Nat.Div0.mod_same.
    + set (st0 := tick (tick (emit [EvConnect (session_of current_phone)] (tick st)))).
      destruct (add_members_same_client cfg tg (session_of current_phone)
                  current_phone members st0) as ((evs & Hj & _ & Hidx) & _).
      destruct (add_members cfg tg _ _ _ _) as [[m' st']|[m' st']];
        cbn [with_phone outcome fst snd] in *; fields.
      all: split; [|done]; eexists;
        (split; [rewrite Hj; subst st0; fields; by rewrite <- ?app_assoc|]).
      all: rewrite Hidx, !peer_floods_app; subst st0; fields; cbn;
        by rewrite ?Nat.add_0_r.
  - unfold rotate. fields.
    destruct (accounts cfg !! _) as [phone'|] eqn:Hp; cbn [with_members fst snd]; fields.
    2: { apply lookup_ge_None in Hp. lia. }
    split; [eexists; split; [by rewrite <- ?app_assoc | by cbn]|].
    split; [done|].
    split; [rewrite !attempted_app; cbn; by rewrite !app_nil_r|].
    split; [done|]. split; [done|]. split; [done|]. split; [|done].
    intros Hl. rewrite Nat.add_1_r, Hl. apply Nat.Div0.mod_same.
Qed.

Lemma turn_authorized members current_phone st :
  turn_through_authorized cfg tg members current_phone st.
Proof.
  unfold turn_through_authorized. cbv zeta.
  destruct (turn_inv cfg tg members current_phone st)
    as [(Hok & _ & tail & Hend & ->)
       |(phone' & st' & tail & -> & Hj & Hend & _)]; cbn [fst snd].
  - set (st0 := tick (tick (emit [EvConnect (session_of current_phone)] (tick st)))).
    destruct (add_members_same_client cfg tg (session_of current_phone)
                current_phone members st0) as ((evs & Hj & Hon & _) & _).
    exists ([EvConnect (session_of current_phone)] ++ evs ++ tail).
    fields. rewrite Hj. subst st0. fields. rewrite <- !app_assoc.
    split; [done|]. split; [|by right].
    apply Forall_app. split; [by repeat constructor|].
    apply Forall_app. split.
    + eapply Forall_impl; [exact Hon|]. by intros [].
    + destruct Hend as [-> | ->]; by repeat constructor.
  - exists (EvConnect (session_of current_phone) :: tail).
    split; [done|]. destruct Hend as [-> | ->]; (split; [by repeat constructor | by left]).
Qed.

Lemma add_member_invited session_file user_data st :
  (min_delay cfg ≤ max_delay cfg)%Z ->
  let r := add_member cfg tg session_file user_data st in
  exists evs,
    journal r.2 = journal st ++ evs
    /\ invited evs = (if r.1 then [user_data] else []).
Proof.
  intros Hd. cbv zeta. unfold add_member, randint.
  rewrite bool_decide_eq_true_2 by done.
  destruct (invite tg _ _ _); fields; eexists;
    (split; [by rewrite <- ?app_assoc|]); done.
Qed.

(** With delays that can be drawn, the inner loop appends to the added list
    the candidates whose invitation was accepted, and counts each of them on
    the phone it was entered with. *)
Lemma add_members_counts session_file current_phone members st n :
  (min_delay cfg ≤ max_delay cfg)%Z ->
  stats st !! current_phone = Some n ->
  let st' := (outcome (add_members cfg tg session_file current_phone members st)).2 in
  exists evs,
    journal st' = journal st ++ evs
    /\ added st' = added st ++ invited evs
    /\ stats st'
       = <[current_phone := (n + Z.of_nat (length (invited evs)))%Z]> (stats st).
Proof.
  intros Hd Hn.
  set (P := fun st' : State =>
              exists evs,
                journal st' = journal st ++ evs
                /\ added st' = added st ++ invited evs
                /\ stats st'
                   = <[current_phone := (n + Z.of_nat (length (invited evs)))%Z]>
                       (stats st)).
  apply (add_members_rule cfg tg (fun _ st' => P st') (fun _ st' => P st'));
    [tauto | tauto | |].
  - intros user_data rest st1 (evs & Hj & Ha & Hs) _. cbv zeta.
    pose proof (add_member_invited session_file user_data st1 Hd)
      as (evs1 & Hj1 & Hinv).
    pose proof (add_member_frame cfg tg session_file user_data st1) as (Hs1 & Ha1 & _).
    destruct (add_member cfg tg session_file user_data st1) as [ok st2]. fields.
    assert (stats st1 !! current_phone
            = Some (n + Z.of_nat (length (invited evs)))%Z) as Hcur.
    { rewrite Hs. apply lookup_insert_eq. }
    destruct ok.
    + unfold record_success. fields. rewrite Hs1, Hcur. fields.
      rewrite lookup_insert_eq.
      assert (P (save_progress
                   (set_stats
                      (<[current_phone:=(n + Z.of_nat (length (invited evs)) + 1)%Z]>
                         (stats st1))
                      (set_added (added st2 ++ [user_data]) st2)))) as HP.
      { exists (evs ++ evs1). fields. rewrite Hj1, Hj, app_assoc. split; [done|].
        rewrite invited_app, Hinv, Ha1, Ha, app_assoc. split; [done|].
        rewrite Hs, insert_insert_eq, length_app. cbn. f_equal. lia. }
      by case_bool_decide.
    + assert (P st2) as HP.
      { exists (evs ++ evs1). rewrite Hj1, Hj, app_assoc. split; [done|].
        rewrite invited_app, Hinv, app_nil_r, Ha1, Ha, Hs1. done. }
      rewrite Hs1, Hcur. by case_bool_decide.
  - exists []. rewrite !app_nil_r. split; [done|]. split; [done|].
    cbn. rewrite Z.add_0_r. symmetry. by apply insert_id.
Qed.

(** The inner loop starts with the invitation of the first candidate. *)
Lemma add_members_first session_file current_phone user_data rest st :
  (Z.of_nat (length (added st)) < members_to_add cfg)%Z ->
  exists r tail,
    journal (outcome (add_members cfg tg session_file current_phone
                        (user_data :: rest) st)).2
    = journal st ++ EvInvite session_file user_data r :: tail.
Proof.
  intros Hlt. cbn [add_members]. rewrite bool_decide_eq_true_2 by done.
  assert (exists r tail,
             journal (add_member cfg tg session_file user_data st).2
             = journal st ++ EvInvite session_file user_data r :: tail)
    as (r & tail & Hj).
  { unfold add_member. destruct (invite tg _ _ _); fields;
      try destruct (randint _ _ _ _); fields; rewrite <- ?app_assoc; eauto. }
  destruct (add_member cfg tg session_file user_data st) as [ok st1]. fields.
  assert (journal (outcome (if ok then record_success current_phone user_data st1
                            else Normal st1)) = journal st1) as Hrec.
  { destruct ok; [|done]. unfold record_success. fields.
    by destruct (stats st1 !! current_phone). }
  destruct (if ok then record_success current_phone user_data st1 else Normal st1)
    as [st2|st2]; cbn [outcome] in Hrec.
  2: { cbn. exists r, tail. by rewrite Hrec. }
  destruct (stats st2 !! current_phone).
  2: { cbn. exists r, tail. by rewrite Hrec. }
  case_bool_decide.
  { cbn. exists r, tail. by rewrite Hrec. }
  destruct (add_members_same_client cfg tg session_file current_phone rest st2)
    as ((evs & Hj2 & _) & _).
  exists r, (tail ++ evs). rewrite Hj2, Hrec, Hj, <- app_assoc. done.
Qed.

End rotation.

(** C4: with a quota Q >= 0, in every state a run reaches no account's daily
    counter exceeds Q, so that at most Q additions are recorded against an
    account, and the rotation index stays within the configured accounts.
    Where the run goes on, its next turn is [turn] applied to that state, and
    the rotation of that turn is a round robin: the turn rotates away from an
    account that is not authorized or whose counter has reached Q, attempts
    nothing then, sets the index to (index + 1) modulo the number of
    accounts (0 after the last account) and takes the account at the new
    index as the phone in use; apart from that the index moves only by one
    such step per flood-of-requests answer. *)
Theorem quota_and_round_robin (cfg : Config) (tg : Telegram)
  (file : option (list CandidateRecord)) (fuel : nat) (st : State) :
  (0 ≤ max_adds_per_day_per_account cfg)%Z ->
  state_of (run fuel cfg tg file (init cfg)) = Some st ->
  (forall phone n, stats st !! phone = Some n ->
                   (0 ≤ n ≤ max_adds_per_day_per_account cfg)%Z)
  /\ current_account_index st < length (accounts cfg)
  /\ forall members current_phone,
       run fuel cfg tg file (init cfg) = Running members current_phone st ->
       let next := turn cfg tg members current_phone st in
       run (S fuel) cfg tg file (init cfg)
       = main_loop 0 cfg tg next.1 next.2.1 next.2.2
       /\ round_robin_turn cfg tg members current_phone st.
Proof.
  intros HQ Hrun. destruct (run_within_quota cfg tg fuel file st HQ Hrun) as [Hs Hi].
  split; [done|]. split; [done|]. intros members current_phone Hrunning. split.
  - by apply run_step.
  - by apply turn_round_robin.
Qed.

Lemma quota_and_round_robin_witness :
  (forall phone n, stats two_phones_state !! phone = Some n -> (0 ≤ n ≤ 1)%Z)
  /\ current_account_index two_phones_state < 2
  /\ forall members current_phone,
       run 5 (config_of ["+100"; "+200"] 3 1 5 5) willing
         (Some [candidate 1; candidate 2; candidate 3])
         (init (config_of ["+100"; "+200"] 3 1 5 5))
       = Running members current_phone two_phones_state ->
       let next := turn (config_of ["+100"; "+200"] 3 1 5 5) willing members
                     current_phone two_phones_state in
       run 6 (config_of ["+100"; "+200"] 3 1 5 5) willing
         (Some [candidate 1; candidate 2; candidate 3])
         (init (config_of ["+100"; "+200"] 3 1 5 5))
       = main_loop 0 (config_of ["+100"; "+200"] 3 1 5 5) willing
           next.1 next.2.1 next.2.2
       /\ round_robin_turn (config_of ["+100"; "+200"] 3 1 5 5) willing members
            current_phone two_phones_state.
Proof.
  apply (quota_and_round_robin (config_of ["+100"; "+200"] 3 1 5 5) willing
           (Some [candidate 1; candidate 2; candidate 3]) 5 two_phones_state).
  - cbn. lia.
  - vm_compute. reflexivity.
Defined.

(** C10: when, in the inner loop, the invitation of a candidate is answered
    by a flood of requests, [add_member] reports a failure and changes the
    rotation index alone (besides the sleep of 60 seconds); the loop goes on
    with the candidates left, with the session file and the phone it was
    entered with: the next candidate is invited through that session, and
    every accepted invitation that follows is appended to the added list and
    counted on that phone, the counters of the other accounts (the one at the
    new index included) staying as they are.  The phone in use is not read
    again by a turn of the outer loop that does not rotate away. *)
Theorem flood_rotation_keeps_client (cfg : Config) (tg : Telegram)
  (session_file current_phone : string) (user_data : CandidateRecord)
  (rest : list CandidateRecord) (st : State) (n : Z) :
  (min_delay cfg ≤ max_delay cfg)%Z ->
  invite tg (clock st) session_file user_data = PeerFloodError ->
  (Z.of_nat (length (added st)) < members_to_add cfg)%Z ->
  stats st !! current_phone = Some n ->
  (n < max_adds_per_day_per_account cfg)%Z ->
  flood_keeps_client cfg tg session_file current_phone user_data rest st n
  /\ forall members0 phone0 st0,
       rotates_away cfg tg phone0 st0 = false ->
       (turn cfg tg members0 phone0 st0).2.1 = phone0.
Proof.
  intros Hd Hflood Hlt Hn HQ. split; [|intros; by apply turn_keeps_phone].
  unfold flood_keeps_client. cbv zeta.
  assert (add_member cfg tg session_file user_data st
          = (false, flooded cfg session_file user_data st)) as Hadd.
  { unfold add_member, flooded. rewrite Hflood.
    unfold switch_account, emit, set_index, tick. fields. by rewrite <- app_assoc. }
  assert (add_members cfg tg session_file current_phone (user_data :: rest) st
          = add_members cfg tg session_file current_phone rest
              (flooded cfg session_file user_data st)) as Heq.
  { cbn [add_members]. rewrite bool_decide_eq_true_2 by done. rewrite Hadd.
    change (stats (flooded cfg session_file user_data st)) with (stats st).
    rewrite Hn. by rewrite bool_decide_eq_false_2 by lia. }
  split; [done|]. split; [done|]. rewrite Heq.
  set (st1 := flooded cfg session_file user_data st).
  destruct (add_members_counts cfg tg session_file current_phone rest st1 n Hd)
    as (evs & Hj & Ha & Hs); [done|].
  destruct (add_members_same_client cfg tg session_file current_phone rest st1)
    as ((evs' & Hj' & Hon & Hi) & _).
  assert (evs' = evs) as ->.
  { eapply app_inv_head. by rewrite <- Hj, <- Hj'. }
  exists evs. split; [done|]. split; [done|]. split; [|done].
  destruct rest as [|next rest'].
  - cbn in Hj. apply (app_inv_head (journal st1)). by rewrite app_nil_r.
  - destruct (add_members_first cfg tg session_file current_phone next rest' st1)
      as (r & tail & Hf); [done|].
    exists r, tail. eapply app_inv_head. by rewrite <- Hj.
Qed.

Lemma flood_rotation_keeps_client_witness :
  flood_keeps_client (config_of ["+100"; "+200"] 3 5 5 5) flooding_first
    "sessions/+100" "+100" (candidate 1) [candidate 2; candidate 3]
    (init (config_of ["+100"; "+200"] 3 5 5 5)) 0
  /\ forall members0 phone0 st0,
       rotates_away (config_of ["+100"; "+200"] 3 5 5 5) flooding_first phone0 st0
       = false ->
       (turn (config_of ["+100"; "+200"] 3 5 5 5) flooding_first members0 phone0
          st0).2.1 = phone0.
Proof.
  apply (flood_rotation_keeps_client (config_of ["+100"; "+200"] 3 5 5 5)
           flooding_first "sessions/+100" "+100" (candidate 1)
           [candidate 2; candidate 3] (init (config_of ["+100"; "+200"] 3 5 5 5)) 0).
  - cbn. lia.
  - vm_compute. reflexivity.
  - cbn. lia.
  - vm_compute. reflexivity.
  - cbn. lia.
Defined.

(** X13: in every turn of the main loop the phone in use is a configured
    account and the invitations of the turn go through its session file;
    there are invitations only when, in that same turn, the client has
    connected, has answered that it is authorized and has found the target
    group.  All the invitations made before went through the session file
    of a configured account. *)
Theorem invitations_go_through_authorized_sessions (cfg : Config) (tg : Telegram)
  (file : option (list CandidateRecord)) (fuel : nat)
  (members : list CandidateRecord) (current_phone : string) (st : State) :
  run fuel cfg tg file (init cfg) = Running members current_phone st ->
  let next := turn cfg tg members current_phone st in
  run (S fuel) cfg tg file (init cfg) = main_loop 0 cfg tg next.1 next.2.1 next.2.2
  /\ current_phone ∈ accounts cfg
  /\ Forall (through_configured cfg) (journal st)
  /\ turn_through_authorized cfg tg members current_phone st.
Proof.
  intros Hrun. cbv zeta. split; [by apply run_step|].
  split; [by eapply run_running_phone|]. split; [|by apply turn_authorized].
  apply (run_sessions cfg tg fuel file st). by rewrite Hrun.
Qed.

Lemma invitations_go_through_authorized_sessions_witness :
  let cfg := config_of ["+100"] 2 5 5 5 in
  let members := [candidate 1; candidate 2; candidate 3] in
  let next := turn cfg rate_limiting members "+100" (init cfg) in
  run 1 cfg rate_limiting (Some members) (init cfg)
  = main_loop 0 cfg rate_limiting next.1 next.2.1 next.2.2
  /\ "+100"%string ∈ accounts cfg
  /\ Forall (through_configured cfg) (journal (init cfg))
  /\ turn_through_authorized cfg rate_limiting members "+100" (init cfg).
Proof.
  apply (invitations_go_through_authorized_sessions (config_of ["+100"] 2 5 5 5)
           rate_limiting (Some [candidate 1; candidate 2; candidate 3]) 0
           [candidate 1; candidate 2; candidate 3] "+100"
           (init (config_of ["+100"] 2 5 5 5))).
  vm_compute. reflexivity.
Defined.
